(** * Color_Plugin: the colour lookup engine of [color_plugin.py]

    A shallow embedding of the two classes of [color_plugin.py],
    [ColorDatabase] (the [colors] table of the SQLite file) and
    [ColorLookup] (the [lru_cache]-memoised resolver with its hex helpers),
    followed by the properties of the specification.

    Conventions of the embedding.
    - A Python [int] is a [Z]; an SQLite INTEGER is the same [Z].  SQLite
      stores and computes integers of 64 bits: a statement bound to a larger
      integer raises [OverflowError], and its arithmetic leaves the integers
      on overflow.  Both are outside the embedding, which is exact on the
      integers of 64 bits; the properties that depend on it carry the bound
      as a hypothesis ([sqlite_key], [scan_exact]).
    - A Python [str] is a [string]; a character is a code point below 256.
      The decimal digits of other scripts, which [int] reads as well, are
      outside the embedding.
    - A raised exception is the [Raise] branch of [result].
    - The [colors] table is the list of its rows in rowid order.
    - The [lru_cache] of [get_color_name] is the list of its entries, the
      most recently used first. *)

From Stdlib Require Import ZArith List Bool Lia Ascii String.
From Stdlib Require Import Permutation Sorted.
Import ListNotations.

Local Open Scope string_scope.
Local Open Scope list_scope.
Local Open Scope Z_scope.

(** ** Exceptions *)

Inductive exn : Type :=
| ValueError.

Inductive result (A : Type) : Type :=
| Ok (a : A)
| Raise (e : exn).

Arguments Ok {A} a.
Arguments Raise {A} e.

Definition bind {A B : Type} (m : result A) (k : A -> result B) : result B :=
  match m with
  | Ok a => k a
  | Raise e => Raise e
  end.

Notation "x <- m ;; k" := (bind m (fun x => k))
  (at level 61, m at next level, right associativity).

(** ** Python strings and [int(s, base)] *)

Module Py.

Definition code (c : ascii) : Z := Z.of_N (N_of_ascii c).

(** [str.lstrip(chars)] for a one-character [chars]. *)
Fixpoint lstrip (ch : ascii) (s : string) : string :=
  match s with
  | String c s' => if Ascii.eqb c ch then lstrip ch s' else s
  | EmptyString => EmptyString
  end.

(** [len(s)] *)
Definition len (s : string) : Z := Z.of_nat (String.length s).

(** [s[i:j]] for [0 <= i <= j]. *)
Fixpoint drop (n : nat) (s : string) : string :=
  match n, s with
  | O, _ => s
  | S n', String _ s' => drop n' s'
  | S _, EmptyString => EmptyString
  end.

Fixpoint take (n : nat) (s : string) : string :=
  match n, s with
  | S n', String c s' => String c (take n' s')
  | _, _ => EmptyString
  end.

Definition slice (s : string) (i j : nat) : string :=
  take (j - i) (drop i s).

(** [''.join([c * 2 for c in s])] *)
Fixpoint double_chars (s : string) : string :=
  match s with
  | String c s' => String c (String c (double_chars s'))
  | EmptyString => EmptyString
  end.

(** [s.split(sep)] for a one-character [sep]; [cur] is the field being
    read, reversed. *)
Fixpoint rev_string (s acc : string) : string :=
  match s with
  | String c s' => rev_string s' (String c acc)
  | EmptyString => acc
  end.

Fixpoint split_aux (sep : ascii) (s cur : string) : list string :=
  match s with
  | String c s' =>
      if Ascii.eqb c sep
      then rev_string cur EmptyString :: split_aux sep s' EmptyString
      else split_aux sep s' (String c cur)
  | EmptyString => [rev_string cur EmptyString]
  end.

Definition split (sep : ascii) (s : string) : list string :=
  split_aux sep s EmptyString.

(** C's [isspace], used by the integer parser on its byte buffer. *)
Definition c_isspace (c : ascii) : bool :=
  let n := code c in ((9 <=? n) && (n <=? 13)) || (n =? 32).

(** [str.isspace] on one code point below 256. *)
Definition unicode_isspace (c : ascii) : bool :=
  let n := code c in
  c_isspace c || ((28 <=? n) && (n <=? 31)) || (n =? 133) || (n =? 160).

Definition is_ascii (s : string) : bool :=
  forallb (fun c => code c <? 128) (list_ascii_of_string s).

(** The buffer [int] parses: an ASCII string as it is; otherwise the
    characters below 127 are kept, a space above them becomes [' '] and
    every other character ['?']. *)
Definition to_ascii_buffer (s : string) : string :=
  if is_ascii s then s
  else string_of_list_ascii
         (map (fun c => if code c <? 127 then c
                        else if unicode_isspace c then " "%char
                        else "?"%char)
              (list_ascii_of_string s)).

(** Value of a digit character: ['0'-'9'], ['a'-'z'], ['A'-'Z']; 37 for
    every other character. *)
Definition digit_value (c : ascii) : Z :=
  let n := code c in
  if (48 <=? n) && (n <=? 57) then n - 48
  else if (97 <=? n) && (n <=? 122) then n - 87
  else if (65 <=? n) && (n <=? 90) then n - 55
  else 37.

Fixpoint skip_spaces (s : string) : string :=
  match s with
  | String c s' => if c_isspace c then skip_spaces s' else s
  | EmptyString => EmptyString
  end.

(** The digit scan: digits of the base and single underscores between
    them.  [prev_us] tells that the previous character was an underscore,
    [seen] that a digit was read.  Returns the value and the rest of the
    buffer, or [None] on a doubled or trailing underscore or when no digit
    was read. *)
Fixpoint scan_digits (base : Z) (s : string) (prev_us seen : bool) (acc : Z)
  : option (Z * string) :=
  match s with
  | String c s' =>
      if Ascii.eqb c "_"%char then
        if prev_us then None else scan_digits base s' true seen acc
      else if digit_value c <? base then
        scan_digits base s' false true (acc * base + digit_value c)
      else if prev_us || negb seen then None else Some (acc, s)
  | EmptyString => if prev_us || negb seen then None else Some (acc, s)
  end.

Definition strip_sign (s : string) : bool * string :=
  match s with
  | String "+" s' => (false, s')
  | String "-" s' => (true, s')
  | _ => (false, s)
  end.

(** The ["0x"] prefix of base 16, and the one underscore allowed after
    it. *)
Definition strip_prefix (base : Z) (s : string) : string :=
  match s with
  | String "0" (String x s') =>
      if (base =? 16) && (Ascii.eqb x "x" || Ascii.eqb x "X") then
        match s' with
        | String "_" s'' => s''
        | _ => s'
        end
      else s
  | _ => s
  end.

Definition starts_with_underscore (s : string) : bool :=
  match s with
  | String "_" _ => true
  | _ => false
  end.

(** [int(s, base)] for base 10 and base 16. *)
Definition int (s : string) (base : Z) : result Z :=
  let buf := skip_spaces (to_ascii_buffer s) in
  let '(neg, buf) := strip_sign buf in
  let buf := strip_prefix base buf in
  if starts_with_underscore buf then Raise ValueError
  else
    match scan_digits base buf false false 0 with
    | Some (v, rest) =>
        match skip_spaces rest with
        | EmptyString => Ok (if neg then - v else v)
        | String _ _ => Raise ValueError
        end
    | None => Raise ValueError
    end.

(** Lower-case hexadecimal digits of a non-negative integer, most
    significant first; [fuel] bounds the number of digits. *)
Definition hex_char (d : Z) : ascii :=
  if d <? 10 then ascii_of_N (Z.to_N (48 + d))
  else ascii_of_N (Z.to_N (87 + d)).

Fixpoint hex_digits (fuel : nat) (z : Z) (acc : string) : string :=
  match fuel with
  | O => String (hex_char (z mod 16)) acc
  | S fuel' =>
      if z <? 16 then String (hex_char z) acc
      else hex_digits fuel' (z / 16) (String (hex_char (z mod 16)) acc)
  end.

Definition hex (z : Z) : string :=
  hex_digits (Z.to_nat (Z.log2 z)) z EmptyString.

(** [format(z, '02x')]: the sign, then the digits filled with zeros up
    to a total width of 2. *)
Definition format_02x (z : Z) : string :=
  if z <? 0 then String "-" (hex (- z))
  else if z <? 16 then String "0" (hex z)
  else hex z.

End Py.

(** ** The [colors] table and the SQL statements run on it *)

Definition key : Type := (Z * Z * Z)%type.

Definition key_eqb (k1 k2 : key) : bool :=
  let '(r1, g1, b1) := k1 in
  let '(r2, g2, b2) := k2 in
  (r1 =? r2) && (g1 =? g2) && (b1 =? b2).

(** A row [(r, g, b, name)] of [colors], as its primary key and its name. *)
Definition row : Type := (key * string)%type.

Definition table : Type := list row.

(** [PRIMARY KEY (r, g, b)] *)
Definition pk_unique (t : table) : Prop := NoDup (map fst t).

(** The rows of the table stored under a key. *)
Definition rows_at (k : key) (t : table) : list row :=
  filter (fun rw => key_eqb (fst rw) k) t.

Module Sql.

(** [INSERT OR REPLACE INTO colors (r, g, b, name) VALUES (?, ?, ?, ?)]:
    the row in conflict on the primary key is deleted and the new row is
    appended. *)
Definition insert_or_replace (k : key) (name : string) (t : table) : table :=
  filter (fun rw => negb (key_eqb (fst rw) k)) t ++ [(k, name)].

(** [SELECT name FROM colors WHERE r=? AND g=? AND b=? LIMIT 1], then
    [fetchone()]. *)
Definition select_name (k : key) (t : table) : option string :=
  match rows_at k t with
  | rw :: _ => Some (snd rw)
  | [] => None
  end.

(** [ABS(r-?) + ABS(g-?) + ABS(b-?)], as long as SQLite computes it in its
    integers. *)
Definition diff (k c : key) : Z :=
  let '(r, g, b) := k in
  let '(cr, cg, cb) := c in
  Z.abs (r - cr) + Z.abs (g - cg) + Z.abs (b - cb).

(** A result row [(r, g, b, name, diff)]. *)
Definition scored : Type := (row * Z)%type.

(** [ORDER BY diff]: a stable insertion sort on the last column; rows of
    equal distance stay in rowid order. *)
Fixpoint insert_by_diff (x : scored) (l : list scored) : list scored :=
  match l with
  | [] => [x]
  | y :: l' =>
      if snd x <=? snd y then x :: y :: l'
      else y :: insert_by_diff x l'
  end.

Fixpoint order_by_diff (l : list scored) : list scored :=
  match l with
  | [] => []
  | x :: l' => insert_by_diff x (order_by_diff l')
  end.

(** [SELECT r, g, b, name, ABS(r-?) + ABS(g-?) + ABS(b-?) as diff
     FROM colors WHERE diff <= ? ORDER BY diff], then [fetchall()]. *)
Definition select_similar (c : key) (threshold : Z) (t : table)
  : list scored :=
  order_by_diff
    (filter (fun x => snd x <=? threshold)
            (map (fun rw => (rw, diff (fst rw) c)) t)).

End Sql.

(** [0 <= x <= 999] for the three components. *)
Definition in_range (r g b : Z) : bool :=
  ((0 <=? r) && (r <=? 999)) && ((0 <=? g) && (g <=? 999))
  && ((0 <=? b) && (b <=? 999)).

(** ** class ColorDatabase *)

Module ColorDatabase.

(** The database file at [db_path]: its [colors] table, and the number of
    connections opened on it so far ([sqlite3.connect]). *)
Record t : Type := mk {
  colors : table;
  connections : nat
}.

Definition connect (d : t) : t :=
  mk (colors d) (S (connections d)).

(** [__init__] with [_initialize_db]: [CREATE TABLE IF NOT EXISTS] keeps
    the rows of an existing file. *)
Definition init (file : table) : t :=
  connect (mk file 0).

(** [add_color(self, r, g, b, name)], for components that SQLite stores
    ([sqlite_key]). *)
Definition add_color (r g b : Z) (name : string) (d : t) : t :=
  let d := connect d in
  mk (Sql.insert_or_replace (r, g, b) name (colors d)) (connections d).

(** [r, g, b = map(int, rgb_str.split(','))] *)
Definition unpack_rgb (rgb_str : string) : result key :=
  match Py.split "," rgb_str with
  | [x; y; z] =>
      r <- Py.int x 10 ;;
      g <- Py.int y 10 ;;
      b <- Py.int z 10 ;;
      Ok (r, g, b)
  | _ => Raise ValueError
  end.

(** The [for rgb_str, name in colors.items()] loop, inside the
    transaction, for keys that SQLite stores ([sqlite_key]). *)
Fixpoint import_items (items : list (string * string)) (t : table)
  : result table :=
  match items with
  | [] => Ok t
  | (rgb_str, name) :: items' =>
      k <- unpack_rgb rgb_str ;;
      import_items items' (Sql.insert_or_replace k name t)
  end.

(** [bulk_import_from_json(self, json_file)], on the items of the
    dictionary loaded from the file.  The [with] block of the connection
    commits when its body returns and rolls the transaction back when the
    body raises. *)
Definition bulk_import_from_json (items : list (string * string)) (d : t)
  : result unit * t :=
  let d := connect d in
  match import_items items (colors d) with
  | Ok t' => (Ok tt, mk t' (connections d))
  | Raise e => (Raise e, d)
  end.

(** [find_color(self, r, g, b)] *)
Definition find_color (r g b : Z) (d : t) : option string * t :=
  if negb (in_range r g b) then (None, d)
  else
    let d := connect d in
    (Sql.select_name (r, g, b) (colors d), d).

End ColorDatabase.

(** ** class ColorLookup *)

Module ColorLookup.

(** The [lru_cache(maxsize=2048)] of [get_color_name]: its entries, the
    most recently used first. *)
Definition lru : Type := list (key * string).

Definition maxsize : nat := 2048.

Record t : Type := mk {
  db : ColorDatabase.t;
  cache : lru
}.

Definition init (file : table) : t :=
  mk (ColorDatabase.init file) [].

Fixpoint cache_find (k : key) (c : lru) : option string :=
  match c with
  | [] => None
  | (k', v) :: c' => if key_eqb k' k then Some v else cache_find k c'
  end.

Fixpoint cache_remove (k : key) (c : lru) : lru :=
  match c with
  | [] => []
  | (k', v) :: c' =>
      if key_eqb k' k then c' else (k', v) :: cache_remove k c'
  end.

(** A hit moves the entry to the front. *)
Definition cache_hit (k : key) (v : string) (c : lru) : lru :=
  (k, v) :: cache_remove k c.

(** A miss stores the new entry at the front; a full cache first drops its
    least recently used entry. *)
Definition cache_miss (k : key) (v : string) (c : lru) : lru :=
  (k, v) :: (if (maxsize <=? List.length c)%nat then removelast c else c).

(** Truth value of a [str]. *)
Definition truthy (s : string) : bool :=
  match s with
  | EmptyString => false
  | String _ _ => true
  end.

(** The body of [get_color_name], without its cache. *)
Definition get_color_name_wrapped (r g b : Z) (self : t) : string * t :=
  if negb (in_range r g b) then ("Invalid RGB value", self)
  else
    let '(name, d) := ColorDatabase.find_color r g b (db self) in
    (match name with
     | Some n => if truthy n then n else "Unknown"
     | None => "Unknown"
     end,
     mk d (cache self)).

(** [get_color_name(self, r, g, b)], decorated with [lru_cache]. *)
Definition get_color_name (r g b : Z) (self : t) : string * t :=
  match cache_find (r, g, b) (cache self) with
  | Some v => (v, mk (db self) (cache_hit (r, g, b) v (cache self)))
  | None =>
      let '(v, self') := get_color_name_wrapped r g b self in
      (v, mk (db self') (cache_miss (r, g, b) v (cache self')))
  end.

(** [get_color_name.cache_clear()] *)
Definition cache_clear (self : t) : t := mk (db self) [].

(** [add_color(self, r, g, b, name)] *)
Definition add_color (r g b : Z) (name : string) (self : t) : t :=
  cache_clear (mk (ColorDatabase.add_color r g b name (db self)) (cache self)).

(** [import_from_json(self, json_file)] *)
Definition import_from_json (items : list (string * string)) (self : t)
  : result unit * t :=
  let '(res, d) := ColorDatabase.bulk_import_from_json items (db self) in
  match res with
  | Ok _ => (Ok tt, cache_clear (mk d (cache self)))
  | Raise e => (Raise e, mk d (cache self))
  end.

(** [find_similar_color(self, r, g, b, threshold=50)], for the scans that
    SQLite computes in its integers ([scan_exact]). *)
Definition find_similar_color (r g b threshold : Z) (self : t)
  : list Sql.scored * t :=
  let d := ColorDatabase.connect (db self) in
  (Sql.select_similar (r, g, b) threshold (ColorDatabase.colors d),
   mk d (cache self)).

(** [hex_to_rgb(hex_str)] *)
Definition hex_to_rgb (hex_str : string) : result (Z * Z * Z) :=
  let hex_str := Py.lstrip "#" hex_str in
  let hex_str :=
    if Py.len hex_str =? 3 then Py.double_chars hex_str else hex_str in
  r <- Py.int (Py.slice hex_str 0 2) 16 ;;
  g <- Py.int (Py.slice hex_str 2 4) 16 ;;
  b <- Py.int (Py.slice hex_str 4 6) 16 ;;
  Ok (r, g, b).

(** [rgb_to_hex(r, g, b)] *)
Definition rgb_to_hex (r g b : Z) : string :=
  ("#" ++ Py.format_02x r ++ Py.format_02x g ++ Py.format_02x b)%string.

End ColorLookup.

Arguments ColorLookup.maxsize : simpl never.
Arguments ColorLookup.cache_miss : simpl never.

(** ** Calls on a [ColorLookup] object and the states they reach *)

Inductive call : Type :=
| GetColorName (r g b : Z)
| AddColor (r g b : Z) (name : string)
| ImportFromJson (items : list (string * string))
| FindSimilarColor (r g b threshold : Z).

Definition step (c : call) (s : ColorLookup.t) : ColorLookup.t :=
  match c with
  | GetColorName r g b => snd (ColorLookup.get_color_name r g b s)
  | AddColor r g b name => ColorLookup.add_color r g b name s
  | ImportFromJson items => snd (ColorLookup.import_from_json items s)
  | FindSimilarColor r g b th => snd (ColorLookup.find_similar_color r g b th s)
  end.

Definition run (cs : list call) (s : ColorLookup.t) : ColorLookup.t :=
  fold_left (fun s c => step c s) cs s.

(** The states of a [ColorLookup] object: created on a file whose table
    obeys its primary key, then used through its methods. *)
Definition reachable (s : ColorLookup.t) : Prop :=
  exists (file : table) (cs : list call),
    pk_unique file /\ s = run cs (ColorLookup.init file).

(** ** Notions used by the properties *)

(** The value the body of [get_color_name] computes from the table. *)
Definition resolved (t : table) (r g b : Z) : string :=
  if negb (in_range r g b) then "Invalid RGB value"
  else match Sql.select_name (r, g, b) t with
       | Some n => if ColorLookup.truthy n then n else "Unknown"
       | None => "Unknown"
       end.

(** Every cached value is the one the body would compute now. *)
Definition coherent (s : ColorLookup.t) : Prop :=
  forall r g b v,
    In ((r, g, b), v) (ColorLookup.cache s) ->
    v = resolved (ColorDatabase.colors (ColorLookup.db s)) r g b.

(** The integers SQLite stores, of 64 bits; a statement bound to an integer
    beyond them raises [OverflowError]. *)
Definition sqlite_integer (z : Z) : bool :=
  (- 2 ^ 63 <=? z) && (z <=? 2 ^ 63 - 1).

Definition sqlite_key (k : key) : bool :=
  let '(r, g, b) := k in
  sqlite_integer r && sqlite_integer g && sqlite_integer b.

(** Components small enough for SQLite to compute the distance of two keys
    in its integers, without overflow. *)
Definition small (z : Z) : bool := (- 2 ^ 60 <=? z) && (z <=? 2 ^ 60).

Definition small_key (k : key) : bool :=
  let '(r, g, b) := k in small r && small g && small b.

(** The similarity scans that SQLite computes in its integers: the centre
    and every stored key are small, the threshold is an integer of 64
    bits. *)
Definition scan_exact (c : key) (threshold : Z) (t : table) : bool :=
  small_key c && sqlite_integer threshold
  && forallb (fun rw : row => small_key (fst rw)) t.

(** The calls that do not write to the store. *)
Definition read_only (c : call) : bool :=
  match c with
  | GetColorName _ _ _ | FindSimilarColor _ _ _ _ => true
  | AddColor _ _ _ _ | ImportFromJson _ => false
  end.

(** The call adds a record under the key [k]. *)
Definition adds (k : key) (c : call) : bool :=
  match c with
  | AddColor r g b _ => key_eqb (r, g, b) k
  | ImportFromJson items =>
      existsb (fun it => match ColorDatabase.unpack_rgb (fst it) with
                         | Ok k' => key_eqb k' k
                         | Raise _ => false
                         end) items
  | GetColorName _ _ _ | FindSimilarColor _ _ _ _ => false
  end.

(** The keys looked up by the calls, in order. *)
Definition resolved_keys (cs : list call) : list key :=
  flat_map (fun c => match c with
                     | GetColorName r g b => [(r, g, b)]
                     | _ => []
                     end) cs.

(** The entry [(k, v)] is in the cache, and the entries used more recently
    have distinct keys, all among [recent]. *)
Definition retained (k : key) (v : string) (recent : list key)
           (c : ColorLookup.lru) : Prop :=
  exists pre post,
    c = pre ++ (k, v) :: post
    /\ ~ In k (map fst pre)
    /\ NoDup (map fst pre)
    /\ incl (map fst pre) recent.

(** The key of an import item parses. *)
Definition well_formed (it : string * string) : bool :=
  match ColorDatabase.unpack_rgb (fst it) with
  | Ok _ => true
  | Raise _ => false
  end.

(** The key of an import item that cannot be read: it does not split at
    its commas into three fields, or one of the three is not an integer. *)
Definition malformed_key (rgb_str : string) : Prop :=
  match Py.split "," rgb_str with
  | [x; y; z] => Exists (fun c => Py.int c 10 = Raise ValueError) [x; y; z]
  | _ => True
  end.

(** The upserts of a list of rows, in order. *)
Definition upsert_all (rows : list row) (t : table) : table :=
  fold_left (fun t rw => Sql.insert_or_replace (fst rw) (snd rw) t) rows t.

(** Hexadecimal digits: ['0'-'9'], ['a'-'f'], ['A'-'F']. *)
Definition is_hex_digit (c : ascii) : bool := Py.digit_value c <? 16.

(** ['0'-'9'] and ['a'-'f']. *)
Definition is_lower_hex_digit (c : ascii) : bool :=
  let n := Py.code c in
  ((48 <=? n) && (n <=? 57)) || ((97 <=? n) && (n <=? 102)).

(** The characters [int(_, 16)] can accept in a slice of two characters: a
    hexadecimal digit, a sign, or white space. *)
Definition int16_tolerated (c : ascii) : bool :=
  is_hex_digit c || Ascii.eqb c "+" || Ascii.eqb c "-" || Py.unicode_isspace c.

Definition all_chars (p : ascii -> bool) (s : string) : bool :=
  forallb p (list_ascii_of_string s).

(** Value of two hexadecimal digits. *)
Definition hex_pair (a b : ascii) : Z :=
  16 * Py.digit_value a + Py.digit_value b.

(** The 256 characters, and the checks run over them. *)
Definition all_ascii : list ascii := map ascii_of_nat (seq 0 256).

Definition raises {A : Type} (m : result A) : bool :=
  match m with
  | Raise _ => true
  | Ok _ => false
  end.

Definition returns (m : result Z) (v : Z) : bool :=
  match m with
  | Ok w => w =? v
  | Raise _ => false
  end.

Definition pair_check (a b : ascii) : bool :=
  let m := Py.int (String a (String b EmptyString)) 16 in
  (if is_hex_digit a && is_hex_digit b then returns m (hex_pair a b) else true)
  && (if int16_tolerated a && int16_tolerated b then true else raises m)
  && (if is_lower_hex_digit a && is_lower_hex_digit b
      then String.eqb (Py.format_02x (hex_pair a b))
                      (String a (String b EmptyString))
      else true).

Definition single_check (a : ascii) : bool :=
  (if int16_tolerated a then true
   else raises (Py.int (String a EmptyString) 16))
  && (if is_hex_digit a then true
      else raises (Py.int (String a (String a EmptyString)) 16))
  && (if is_hex_digit a then negb (Ascii.eqb a "#") else true).

Definition byte_check (z : Z) : bool :=
  match Py.format_02x z with
  | String a (String b EmptyString) =>
      is_lower_hex_digit a && is_lower_hex_digit b && (hex_pair a b =? z)
  | _ => false
  end.

(** ** Notions used by the further properties *)

(** The cache holds one entry per key and at most [maxsize] entries. *)
Definition cache_wf (c : ColorLookup.lru) : Prop :=
  NoDup (map fst c) /\ (List.length c <= ColorLookup.maxsize)%nat.

(** The lookups of a list of keys, in order. *)
Definition lookups (ks : list key) : list call :=
  map (fun k : key => let '(r, g, b) := k in GetColorName r g b) ks.

(** The order of use after a lookup of [k]: [k] first, then the others. *)
Definition touch (k : key) (l : list key) : list key :=
  k :: filter (fun x => negb (key_eqb x k)) l.

(** The keys in order of last use, the most recent first, after the lookups
    of [ks] from the order [l]. *)
Definition mru_from (l : list key) (ks : list key) : list key :=
  fold_left (fun l k => touch k l) ks l.

(** The name of the last import item whose key reads as [k]. *)
Fixpoint last_name (k : key) (items : list (string * string))
  : option string :=
  match items with
  | [] => None
  | it :: items' =>
      match last_name k items' with
      | Some n => Some n
      | None =>
          match ColorDatabase.unpack_rgb (fst it) with
          | Ok k' => if key_eqb k' k then Some (snd it) else None
          | Raise _ => None
          end
      end
  end.

(** The [add_color] call that stores a row. *)
Definition add_call (rw : row) : call :=
  let '((r, g, b), name) := rw in AddColor r g b name.

(** ASCII lower case of a character and of a string. *)
Definition lower_char (c : ascii) : ascii :=
  let n := Py.code c in
  if (65 <=? n) && (n <=? 90) then ascii_of_N (Z.to_N (n + 32)) else c.

Fixpoint lower_string (s : string) : string :=
  match s with
  | String c s' => String (lower_char c) (lower_string s')
  | EmptyString => EmptyString
  end.

(** Further checks run over the characters and over the components. *)
Definition in_int16_range (m : result Z) : bool :=
  match m with
  | Ok v => (-15 <=? v) && (v <=? 255)
  | Raise _ => true
  end.

Definition short_check (a b : ascii) : bool :=
  in_int16_range (Py.int (String a (String b EmptyString)) 16)
  && in_int16_range (Py.int (String a EmptyString) 16)
  && (if is_hex_digit a && is_hex_digit b
      then String.eqb (Py.format_02x (hex_pair a b))
                      (String (lower_char a) (String (lower_char b) EmptyString))
      else true).

Definition wide_check (z : Z) : bool :=
  match Py.format_02x z with
  | String a (String b (String c EmptyString)) =>
      is_lower_hex_digit a && is_lower_hex_digit b && is_lower_hex_digit c
      && (hex_pair a b <=? 255)
  | _ => false
  end.

(** ** Keys and the table *)

Lemma key_eqb_eq (k1 k2 : key) : key_eqb k1 k2 = true <-> k1 = k2.
Proof.
  destruct k1 as [[r1 g1] b1], k2 as [[r2 g2] b2]; unfold key_eqb.
  rewrite !andb_true_iff, !Z.eqb_eq.
  split; [intros [[-> ->] ->]; reflexivity | intros H; inversion H; auto].
Qed.

Lemma key_eqb_refl (k : key) : key_eqb k k = true.
Proof. apply key_eqb_eq; reflexivity. Qed.

Lemma key_eqb_neq (k1 k2 : key) : key_eqb k1 k2 = false <-> k1 <> k2.
Proof.
  rewrite <- key_eqb_eq. destruct (key_eqb k1 k2); split; congruence.
Qed.

Lemma key_eq_dec (k1 k2 : key) : {k1 = k2} + {k1 <> k2}.
Proof.
  destruct (key_eqb k1 k2) eqn:E; [left; now apply key_eqb_eq
                                  | right; now apply key_eqb_neq].
Defined.

Lemma rows_at_app (k : key) (t1 t2 : table) :
  rows_at k (t1 ++ t2) = rows_at k t1 ++ rows_at k t2.
Proof. apply filter_app. Qed.

Lemma rows_at_In (k : key) (t : table) (rw : row) :
  In rw (rows_at k t) <-> In rw t /\ fst rw = k.
Proof. unfold rows_at. rewrite filter_In, key_eqb_eq. reflexivity. Qed.

Lemma rows_at_nil (k : key) (t : table) :
  rows_at k t = [] <-> forall name, ~ In (k, name) t.
Proof.
  split.
  - intros E name Hin.
    assert (In (k, name) (rows_at k t)) as H by (apply rows_at_In; auto).
    rewrite E in H; exact H.
  - intros H. destruct (rows_at k t) as [|[k' n] l] eqn:E; [reflexivity|].
    assert (In (k', n) (rows_at k t)) as Hin by (rewrite E; left; reflexivity).
    apply rows_at_In in Hin as [Hin Hk]; simpl in Hk; subst k'.
    destruct (H n Hin).
Qed.

(** Under the primary key, a key holds at most one row. *)
Lemma rows_at_unique (k : key) (name : string) (t : table) :
  pk_unique t -> In (k, name) t -> rows_at k t = [(k, name)].
Proof.
  unfold pk_unique. induction t as [|[k' n'] t IH]; simpl; intros Hnd Hin.
  - destruct Hin.
  - inversion Hnd as [|? ? Hnotin Hnd']; subst.
    destruct Hin as [E | Hin].
    + inversion E; subst. rewrite key_eqb_refl. f_equal.
      apply rows_at_nil. intros n Hn. apply Hnotin.
      apply (in_map fst) in Hn; exact Hn.
    + destruct (key_eqb k' k) eqn:Ek.
      * apply key_eqb_eq in Ek; subst k'. exfalso. apply Hnotin.
        apply (in_map fst) in Hin; exact Hin.
      * apply IH; assumption.
Qed.

Lemma rows_at_deleted (k : key) (t : table) :
  rows_at k (filter (fun rw => negb (key_eqb (fst rw) k)) t) = [].
Proof.
  apply rows_at_nil. intros name Hin. apply filter_In in Hin as [_ H].
  simpl in H. rewrite key_eqb_refl in H. discriminate.
Qed.

Lemma rows_at_kept (k k' : key) (t : table) :
  k' <> k ->
  rows_at k' (filter (fun rw => negb (key_eqb (fst rw) k)) t) = rows_at k' t.
Proof.
  intros Hne. unfold rows_at. induction t as [|[k0 n0] t IH]; simpl.
  - reflexivity.
  - destruct (key_eqb k0 k) eqn:E0; simpl.
    + apply key_eqb_eq in E0; subst k0.
      assert (key_eqb k k' = false) as -> by (apply key_eqb_neq; congruence).
      exact IH.
    + destruct (key_eqb k0 k'); [f_equal|]; exact IH.
Qed.

Lemma rows_at_insert_same (k : key) (name : string) (t : table) :
  rows_at k (Sql.insert_or_replace k name t) = [(k, name)].
Proof.
  unfold Sql.insert_or_replace. rewrite rows_at_app, rows_at_deleted.
  simpl. rewrite key_eqb_refl. reflexivity.
Qed.

Lemma rows_at_insert_other (k k' : key) (name : string) (t : table) :
  k' <> k ->
  rows_at k' (Sql.insert_or_replace k name t) = rows_at k' t.
Proof.
  intros Hne. unfold Sql.insert_or_replace.
  rewrite rows_at_app, rows_at_kept by assumption.
  simpl. assert (key_eqb k k' = false) as -> by (apply key_eqb_neq; congruence).
  apply app_nil_r.
Qed.

Lemma pk_unique_filter (f : row -> bool) (t : table) :
  pk_unique t -> pk_unique (filter f t).
Proof.
  unfold pk_unique. induction t as [|rw t IH]; simpl; intros Hnd.
  - constructor.
  - inversion Hnd as [|? ? Hnotin Hnd']; subst.
    destruct (f rw); simpl; [constructor|]; auto.
    intros Hin. apply Hnotin. apply in_map_iff in Hin as [x [Hx Hin]].
    apply filter_In in Hin as [Hin _]. apply in_map_iff. eauto.
Qed.

Lemma pk_unique_insert (k : key) (name : string) (t : table) :
  pk_unique t -> pk_unique (Sql.insert_or_replace k name t).
Proof.
  intros Hnd. unfold pk_unique, Sql.insert_or_replace.
  rewrite map_app. simpl.
  apply NoDup_app; [apply (pk_unique_filter _ _ Hnd) | repeat constructor; auto | ].
  intros k0 Hin [E | []]; subst k0.
  apply in_map_iff in Hin as [[k' n'] [Hk Hin]]. simpl in Hk; subst k'.
  apply filter_In in Hin as [_ H]. simpl in H.
  rewrite key_eqb_refl in H. discriminate.
Qed.

Lemma select_name_rows (k : key) (t : table) :
  Sql.select_name k t = match rows_at k t with
                        | rw :: _ => Some (snd rw)
                        | [] => None
                        end.
Proof. reflexivity. Qed.

(** ** Invariants of the reachable states *)

Lemma run_app (cs1 cs2 : list call) (s : ColorLookup.t) :
  run (cs1 ++ cs2) s = run cs2 (run cs1 s).
Proof. apply fold_left_app. Qed.

Lemma run_cons (c : call) (cs : list call) (s : ColorLookup.t) :
  run (c :: cs) s = run cs (step c s).
Proof. reflexivity. Qed.

(** A property kept by every call holds all along a run. *)
Lemma run_invariant (P : ColorLookup.t -> Prop) :
  (forall c s, P s -> P (step c s)) ->
  forall cs s, P s -> P (run cs s).
Proof.
  intros Hstep cs. induction cs as [|c cs IH]; intros s Hs; simpl.
  - exact Hs.
  - apply IH, Hstep, Hs.
Qed.

Lemma reachable_step (c : call) (s : ColorLookup.t) :
  reachable s -> reachable (step c s).
Proof.
  intros (file & cs & Hpk & ->). exists file, (cs ++ [c]).
  split; [assumption|]. rewrite run_app. reflexivity.
Qed.

Lemma get_color_name_db (r g b : Z) (s : ColorLookup.t) :
  ColorDatabase.colors (ColorLookup.db (snd (ColorLookup.get_color_name r g b s)))
  = ColorDatabase.colors (ColorLookup.db s).
Proof.
  unfold ColorLookup.get_color_name, ColorLookup.get_color_name_wrapped,
    ColorDatabase.find_color.
  destruct (ColorLookup.cache_find _ _); [reflexivity|].
  destruct (in_range r g b); reflexivity.
Qed.

Lemma import_items_pk (items : list (string * string)) :
  forall t t', pk_unique t ->
    ColorDatabase.import_items items t = Ok t' -> pk_unique t'.
Proof.
  induction items as [|[rgb_str name] items IH]; simpl; intros t t' Hpk H.
  - inversion H; subst; assumption.
  - destruct (ColorDatabase.unpack_rgb rgb_str) as [k|e]; simpl in H;
      [|discriminate].
    eapply IH; [|exact H]. apply pk_unique_insert, Hpk.
Qed.

Lemma step_pk_unique (c : call) (s : ColorLookup.t) :
  pk_unique (ColorDatabase.colors (ColorLookup.db s)) ->
  pk_unique (ColorDatabase.colors (ColorLookup.db (step c s))).
Proof.
  intros Hpk. destruct c as [r g b | r g b name | items | r g b th]; simpl.
  - rewrite get_color_name_db. exact Hpk.
  - apply pk_unique_insert, Hpk.
  - unfold ColorLookup.import_from_json, ColorDatabase.bulk_import_from_json.
    simpl.
    destruct (ColorDatabase.import_items items _) as [t'|e] eqn:E; simpl.
    + eapply import_items_pk; eassumption.
    + exact Hpk.
  - exact Hpk.
Qed.

(** The store never holds two rows under one key. *)
Lemma reachable_pk_unique (s : ColorLookup.t) :
  reachable s -> pk_unique (ColorDatabase.colors (ColorLookup.db s)).
Proof.
  intros (file & cs & Hpk & ->).
  apply (run_invariant
           (fun s => pk_unique (ColorDatabase.colors (ColorLookup.db s)))).
  - intros c s; apply step_pk_unique.
  - exact Hpk.
Qed.

Lemma wrapped_resolved (r g b : Z) (s : ColorLookup.t) :
  fst (ColorLookup.get_color_name_wrapped r g b s)
  = resolved (ColorDatabase.colors (ColorLookup.db s)) r g b.
Proof.
  unfold ColorLookup.get_color_name_wrapped, resolved, ColorDatabase.find_color.
  destruct (in_range r g b); reflexivity.
Qed.

Lemma cache_find_In (k : key) (v : string) (c : ColorLookup.lru) :
  ColorLookup.cache_find k c = Some v -> In (k, v) c.
Proof.
  induction c as [|[k' v'] c IH]; simpl; [discriminate|].
  destruct (key_eqb k' k) eqn:E.
  - apply key_eqb_eq in E; subst. intros H; inversion H; auto.
  - auto.
Qed.

Lemma cache_find_None (k : key) (c : ColorLookup.lru) :
  ColorLookup.cache_find k c = None <-> ~ In k (map fst c).
Proof.
  induction c as [|[k' v'] c IH]; simpl; [tauto|].
  destruct (key_eqb k' k) eqn:E.
  - apply key_eqb_eq in E; subst. split; [discriminate | tauto].
  - apply key_eqb_neq in E. rewrite IH. tauto.
Qed.

Lemma cache_remove_In (k : key) (x : key * string) (c : ColorLookup.lru) :
  In x (ColorLookup.cache_remove k c) -> In x c.
Proof.
  induction c as [|[k' v'] c IH]; simpl; [tauto|].
  destruct (key_eqb k' k); simpl; tauto.
Qed.

Lemma removelast_In {A : Type} (x : A) (l : list A) :
  In x (removelast l) -> In x l.
Proof.
  induction l as [|a l IH]; simpl; [tauto|].
  destruct l as [|b l]; [tauto|]. simpl in *. tauto.
Qed.

Lemma cache_miss_In (x : key * string) (k : key) (v : string)
      (c : ColorLookup.lru) :
  In x (ColorLookup.cache_miss k v c) -> x = (k, v) \/ In x c.
Proof.
  unfold ColorLookup.cache_miss.
  destruct (ColorLookup.maxsize <=? Datatypes.length c)%nat;
    intros H; apply in_inv in H as [H | H]; auto.
  right; apply removelast_In, H.
Qed.

Lemma wrapped_cache (r g b : Z) (s : ColorLookup.t) :
  ColorLookup.cache (snd (ColorLookup.get_color_name_wrapped r g b s))
  = ColorLookup.cache s.
Proof.
  unfold ColorLookup.get_color_name_wrapped, ColorDatabase.find_color.
  destruct (in_range r g b); reflexivity.
Qed.

Lemma get_color_name_coherent (r g b : Z) (s : ColorLookup.t) :
  coherent s ->
  fst (ColorLookup.get_color_name r g b s)
  = resolved (ColorDatabase.colors (ColorLookup.db s)) r g b
  /\ coherent (snd (ColorLookup.get_color_name r g b s)).
Proof.
  intros Hco.
  pose proof (get_color_name_db r g b s) as Hdb.
  pose proof (wrapped_resolved r g b s) as Hw.
  pose proof (wrapped_cache r g b s) as Hc.
  unfold coherent. rewrite Hdb. clear Hdb.
  unfold ColorLookup.get_color_name in *.
  destruct (ColorLookup.cache_find (r, g, b) (ColorLookup.cache s)) as [v|] eqn:E.
  - apply cache_find_In in E. pose proof (Hco _ _ _ _ E) as Hv.
    simpl. split; [exact Hv|].
    intros r' g' b' v' [H | H].
    + inversion H; subst; reflexivity.
    + apply cache_remove_In in H. apply Hco, H.
  - destruct (ColorLookup.get_color_name_wrapped r g b s) as [v s'] eqn:Ew.
    simpl in *. split; [exact Hw|].
    rewrite Hc. intros r' g' b' v' H.
    apply cache_miss_In in H as [H | H].
    + inversion H; subst; reflexivity.
    + apply Hco, H.
Qed.

Lemma step_coherent (c : call) (s : ColorLookup.t) :
  coherent s -> coherent (step c s).
Proof.
  intros Hco. destruct c as [r g b | r g b name | items | r g b th]; simpl.
  - apply get_color_name_coherent, Hco.
  - intros r' g' b' v [].
  - unfold ColorLookup.import_from_json, ColorDatabase.bulk_import_from_json.
    destruct (ColorDatabase.import_items items _) as [t'|e]; simpl.
    + intros r' g' b' v [].
    + exact Hco.
  - exact Hco.
Qed.

Lemma reachable_coherent (s : ColorLookup.t) : reachable s -> coherent s.
Proof.
  intros (file & cs & _ & ->). apply (run_invariant coherent).
  - intros c s; apply step_coherent.
  - intros r g b v [].
Qed.

(** ** Exact lookup and upsert *)

Lemma in_range_spec (r g b : Z) :
  in_range r g b = true
  <-> (0 <= r <= 999 /\ 0 <= g <= 999 /\ 0 <= b <= 999).
Proof.
  unfold in_range. rewrite !andb_true_iff, !Z.leb_le. tauto.
Qed.

Lemma step_read_only_colors (c : call) (s : ColorLookup.t) :
  read_only c = true ->
  ColorDatabase.colors (ColorLookup.db (step c s))
  = ColorDatabase.colors (ColorLookup.db s).
Proof.
  destruct c; simpl; try discriminate; intros _.
  - apply get_color_name_db.
  - reflexivity.
Qed.

Lemma run_read_only_colors (cs : list call) :
  forall s, forallb read_only cs = true ->
    ColorDatabase.colors (ColorLookup.db (run cs s))
    = ColorDatabase.colors (ColorLookup.db s).
Proof.
  induction cs as [|c cs IH]; intros s H; simpl in *.
  - reflexivity.
  - apply andb_true_iff in H as [Hc Hcs].
    rewrite (IH _ Hcs). apply step_read_only_colors, Hc.
Qed.

Lemma resolved_stored (t : table) (r g b : Z) (name : string) :
  in_range r g b = true -> name <> EmptyString ->
  rows_at (r, g, b) t = [((r, g, b), name)] ->
  resolved t r g b = name.
Proof.
  intros Hr Hn Hrows. unfold resolved. rewrite Hr, select_name_rows, Hrows.
  simpl. destruct name; [congruence | reflexivity].
Qed.

Lemma resolved_absent (t : table) (r g b : Z) :
  in_range r g b = true -> rows_at (r, g, b) t = [] ->
  resolved t r g b = "Unknown".
Proof.
  intros Hr Hrows. unfold resolved. rewrite Hr, select_name_rows, Hrows.
  reflexivity.
Qed.

(** C1. After [add_color(r, g, b, name)] with a key in range and a
    non-empty name, [get_color_name(r, g, b)] returns [name]: on the first
    call and on every later one, whatever the cache held before the add and
    whatever is looked up in between. *)
Theorem resolve_after_add_color :
  forall (s : ColorLookup.t) (r g b : Z) (name : string) (between : list call),
    0 <= r <= 999 /\ 0 <= g <= 999 /\ 0 <= b <= 999 ->
    name <> EmptyString ->
    forallb read_only between = true ->
    fst (ColorLookup.get_color_name r g b
           (run between (ColorLookup.add_color r g b name s))) = name.
Proof.
  intros s r g b name between Hr Hn Hro.
  apply in_range_spec in Hr.
  set (s1 := ColorLookup.add_color r g b name s).
  assert (coherent (run between s1)) as Hco.
  { apply (run_invariant coherent).
    - intros c s'; apply step_coherent.
    - intros r' g' b' v []. }
  destruct (get_color_name_coherent r g b _ Hco) as [-> _].
  rewrite (run_read_only_colors between s1 Hro).
  apply resolved_stored; [assumption | assumption |].
  subst s1. simpl. apply rows_at_insert_same.
Qed.

Lemma resolve_after_add_color_witness :
  fst (ColorLookup.get_color_name 255 0 0
         (run [GetColorName 255 0 0; GetColorName 1 2 3]
              (ColorLookup.add_color 255 0 0 "Bright Red"
                 (ColorLookup.mk (ColorDatabase.init [((255, 0, 0), "Red")])
                                 [((255, 0, 0), "Red")]))))
  = "Bright Red".
Proof.
  apply resolve_after_add_color; [lia | discriminate | reflexivity].
Defined.

(** C7. Two [add_color] calls on one key that SQLite stores leave exactly
    one row under that key, holding the name of the second call, and the
    table of a reachable state never holds two rows under one key. *)
Theorem add_color_twice_upsert :
  forall (s : ColorLookup.t) (r g b : Z) (name1 name2 : string),
    reachable s ->
    sqlite_key (r, g, b) = true ->
    let s' := ColorLookup.add_color r g b name2
                (ColorLookup.add_color r g b name1 s) in
    rows_at (r, g, b) (ColorDatabase.colors (ColorLookup.db s'))
    = [((r, g, b), name2)]
    /\ pk_unique (ColorDatabase.colors (ColorLookup.db s')).
Proof.
  intros s r g b name1 name2 Hs _ s'. split.
  - subst s'. simpl. apply rows_at_insert_same.
  - apply reachable_pk_unique.
    apply (reachable_step (AddColor r g b name2)).
    apply (reachable_step (AddColor r g b name1)). exact Hs.
Qed.

Lemma init_reachable (file : table) :
  pk_unique file -> reachable (ColorLookup.init file).
Proof. intros H. exists file, []. split; [exact H | reflexivity]. Qed.

Lemma add_color_twice_upsert_witness :
  let s' := ColorLookup.add_color 255 0 0 "Bright Red"
              (ColorLookup.add_color 255 0 0 "Red" (ColorLookup.init [])) in
  rows_at (255, 0, 0) (ColorDatabase.colors (ColorLookup.db s'))
  = [((255, 0, 0), "Bright Red")]
  /\ pk_unique (ColorDatabase.colors (ColorLookup.db s')).
Proof.
  apply (add_color_twice_upsert (ColorLookup.init []) 255 0 0 "Red" "Bright Red").
  - exists [], []. split; [constructor | reflexivity].
  - reflexivity.
Defined.

(** C8, as stated, fails: [find_color] checks the range itself, and a row
    stored under a key out of [0, 999] is not found. *)
Lemma find_color_range_checked :
  let d := ColorDatabase.mk [((1000, 0, 0), "Beyond")] 0 in
  In ((1000, 0, 0), "Beyond") (ColorDatabase.colors d)
  /\ fst (ColorDatabase.find_color 1000 0 0 d) = None.
Proof. split; [left; reflexivity | reflexivity]. Qed.

(** C8, amended. On a table that obeys its primary key, [find_color]
    returns the stored name exactly when the key is within [0, 999] and a
    row is stored under it; it returns [None] when no row is stored under
    the key or when a component is out of [0, 999], and it opens a
    connection only in the first case. *)
Theorem find_color_exact :
  forall (d : ColorDatabase.t) (r g b : Z),
    pk_unique (ColorDatabase.colors d) ->
    (forall name,
        fst (ColorDatabase.find_color r g b d) = Some name
        <-> in_range r g b = true
            /\ In ((r, g, b), name) (ColorDatabase.colors d))
    /\ (fst (ColorDatabase.find_color r g b d) = None
        <-> in_range r g b = false
            \/ forall name, ~ In ((r, g, b), name) (ColorDatabase.colors d))
    /\ (in_range r g b = false -> snd (ColorDatabase.find_color r g b d) = d).
Proof.
  intros d r g b Hpk. unfold ColorDatabase.find_color.
  destruct (in_range r g b) eqn:Hr; simpl.
  - rewrite select_name_rows.
    destruct (rows_at (r, g, b) (ColorDatabase.colors d)) as [|[k n] l] eqn:E.
    + pose proof (proj1 (rows_at_nil _ _) E) as Hnone.
      split; [|split].
      * intros name; split; [discriminate | intros [_ Hin]; destruct (Hnone _ Hin)].
      * split; auto.
      * discriminate.
    + assert (In (k, n) (rows_at (r, g, b) (ColorDatabase.colors d))) as Hin
          by (rewrite E; left; reflexivity).
      apply rows_at_In in Hin as [Hin Hk]. simpl in Hk; subst k.
      split; [|split].
      * intros name; simpl; split.
        -- intros H; inversion H; subst; auto.
        -- intros [_ Hin']. pose proof (rows_at_unique _ _ _ Hpk Hin') as E'.
           rewrite E in E'. inversion E'; reflexivity.
      * simpl; split; [discriminate|].
        intros [H | H]; [discriminate | destruct (H n Hin)].
      * discriminate.
  - split; [|split].
    + intros name; split; [discriminate | intros [H _]; discriminate].
    + split; auto.
    + reflexivity.
Qed.

Lemma find_color_exact_witness :
  let d := ColorDatabase.mk [((255, 0, 0), "Bright Red")] 0 in
  (forall name,
      fst (ColorDatabase.find_color 255 0 0 d) = Some name
      <-> in_range 255 0 0 = true
          /\ In ((255, 0, 0), name) (ColorDatabase.colors d))
  /\ (fst (ColorDatabase.find_color 255 0 0 d) = None
      <-> in_range 255 0 0 = false
          \/ forall name, ~ In ((255, 0, 0), name) (ColorDatabase.colors d))
  /\ (in_range 255 0 0 = false -> snd (ColorDatabase.find_color 255 0 0 d) = d).
Proof.
  apply find_color_exact. repeat constructor. simpl; tauto.
Defined.

(** C9, as stated, fails: [add_color] does not validate its components, and
    a negative one is written to the store like any other. *)
Lemma add_color_negative_written :
  In ((-1, 0, 0), "Below")
     (ColorDatabase.colors
        (ColorLookup.db (ColorLookup.add_color (-1) 0 0 "Below"
                                               (ColorLookup.init [])))).
Proof. left; reflexivity. Qed.

(** C9, amended. [add_color] validates nothing itself: for all components
    that SQLite stores, the integers of 64 bits, negative or not, the record
    is written to the store, as the only row under its key, and the cache is
    emptied. *)
Theorem add_color_always_written :
  forall (s : ColorLookup.t) (r g b : Z) (name : string),
    sqlite_key (r, g, b) = true ->
    let s' := ColorLookup.add_color r g b name s in
    rows_at (r, g, b) (ColorDatabase.colors (ColorLookup.db s'))
    = [((r, g, b), name)]
    /\ ColorLookup.cache s' = [].
Proof.
  intros s r g b name _ s'. split; [|reflexivity].
  subst s'. simpl. apply rows_at_insert_same.
Qed.

Lemma add_color_always_written_witness :
  let s' := ColorLookup.add_color (-1) 1000 0 "Below"
              (ColorLookup.mk (ColorDatabase.init [((-1, 1000, 0), "Old")])
                              [((1, 2, 3), "Unknown")]) in
  rows_at (-1, 1000, 0) (ColorDatabase.colors (ColorLookup.db s'))
  = [((-1, 1000, 0), "Below")]
  /\ ColorLookup.cache s' = [].
Proof.
  apply (add_color_always_written
           (ColorLookup.mk (ColorDatabase.init [((-1, 1000, 0), "Old")])
                           [((1, 2, 3), "Unknown")])
           (-1) 1000 0 "Below").
  reflexivity.
Defined.

(** ** Range validation *)

Lemma cache_find_hit (k : key) (v : string) (c : ColorLookup.lru) :
  ColorLookup.cache_find k (ColorLookup.cache_hit k v c) = Some v.
Proof. unfold ColorLookup.cache_hit. simpl. rewrite key_eqb_refl. reflexivity. Qed.

Lemma cache_find_miss (k : key) (v : string) (c : ColorLookup.lru) :
  ColorLookup.cache_find k (ColorLookup.cache_miss k v c) = Some v.
Proof. unfold ColorLookup.cache_miss. simpl. rewrite key_eqb_refl. reflexivity. Qed.

(** A lookup leaves its own entry in the cache. *)
Lemma get_color_name_cached (r g b : Z) (s : ColorLookup.t) :
  ColorLookup.cache_find (r, g, b)
    (ColorLookup.cache (snd (ColorLookup.get_color_name r g b s)))
  = Some (fst (ColorLookup.get_color_name r g b s)).
Proof.
  unfold ColorLookup.get_color_name.
  destruct (ColorLookup.cache_find (r, g, b) (ColorLookup.cache s)) as [v|].
  - cbn [fst snd ColorLookup.cache]. apply cache_find_hit.
  - destruct (ColorLookup.get_color_name_wrapped r g b s) as [v s'].
    cbn [fst snd ColorLookup.cache]. apply cache_find_miss.
Qed.

(** C3, as stated, fails: a lookup out of range changes the state, since
    [lru_cache] stores the result of the call under the rejected key. *)
Lemma invalid_lookup_changes_cache :
  let s := ColorLookup.init [] in
  in_range 1000 0 0 = false
  /\ snd (ColorLookup.get_color_name 1000 0 0 s) <> s
  /\ ColorLookup.cache (snd (ColorLookup.get_color_name 1000 0 0 s))
     = [((1000, 0, 0), "Invalid RGB value")].
Proof.
  split; [reflexivity|]. split; [|reflexivity].
  intros H. apply (f_equal ColorLookup.cache) in H. discriminate H.
Qed.

(** C3, amended. In a reachable state, a lookup with a component out of
    [0, 999] returns ["Invalid RGB value"], opens no connection and leaves
    the store as it is; the cache then holds that string under the rejected
    key.  [(0, 0, 0)] and [(999, 999, 999)] are in range: their lookup
    returns what the store holds for them. *)
Theorem invalid_lookup_fails_fast :
  forall (s : ColorLookup.t) (r g b : Z),
    reachable s ->
    ~ (0 <= r <= 999 /\ 0 <= g <= 999 /\ 0 <= b <= 999) ->
    (fst (ColorLookup.get_color_name r g b s) = "Invalid RGB value"
     /\ ColorLookup.db (snd (ColorLookup.get_color_name r g b s))
        = ColorLookup.db s
     /\ ColorLookup.cache_find (r, g, b)
          (ColorLookup.cache (snd (ColorLookup.get_color_name r g b s)))
        = Some "Invalid RGB value")
    /\ fst (ColorLookup.get_color_name 0 0 0 s)
       = match Sql.select_name (0, 0, 0)
                 (ColorDatabase.colors (ColorLookup.db s)) with
         | Some n => if ColorLookup.truthy n then n else "Unknown"
         | None => "Unknown"
         end
    /\ fst (ColorLookup.get_color_name 999 999 999 s)
       = match Sql.select_name (999, 999, 999)
                 (ColorDatabase.colors (ColorLookup.db s)) with
         | Some n => if ColorLookup.truthy n then n else "Unknown"
         | None => "Unknown"
         end.
Proof.
  intros s r g b Hs Hout.
  pose proof (reachable_coherent s Hs) as Hco.
  assert (in_range r g b = false) as Hr.
  { destruct (in_range r g b) eqn:E; [|reflexivity].
    apply in_range_spec in E. contradiction. }
  assert (fst (ColorLookup.get_color_name r g b s) = "Invalid RGB value") as Hv.
  { destruct (get_color_name_coherent r g b s Hco) as [-> _].
    unfold resolved. rewrite Hr. reflexivity. }
  split; [split; [exact Hv | split] | split].
  - unfold ColorLookup.get_color_name, ColorLookup.get_color_name_wrapped.
    destruct (ColorLookup.cache_find _ _); [reflexivity|].
    rewrite Hr. reflexivity.
  - rewrite get_color_name_cached, Hv. reflexivity.
  - destruct (get_color_name_coherent 0 0 0 s Hco) as [-> _]. reflexivity.
  - destruct (get_color_name_coherent 999 999 999 s Hco) as [-> _]. reflexivity.
Qed.

Lemma invalid_lookup_fails_fast_witness :
  let s := ColorLookup.add_color 999 999 999 "Max White" (ColorLookup.init []) in
  (fst (ColorLookup.get_color_name (-1) 0 0 s) = "Invalid RGB value"
   /\ ColorLookup.db (snd (ColorLookup.get_color_name (-1) 0 0 s))
      = ColorLookup.db s
   /\ ColorLookup.cache_find (-1, 0, 0)
        (ColorLookup.cache (snd (ColorLookup.get_color_name (-1) 0 0 s)))
      = Some "Invalid RGB value")
  /\ fst (ColorLookup.get_color_name 0 0 0 s) = "Unknown"
  /\ fst (ColorLookup.get_color_name 999 999 999 s) = "Max White".
Proof.
  apply (invalid_lookup_fails_fast
           (ColorLookup.add_color 999 999 999 "Max White" (ColorLookup.init []))
           (-1) 0 0).
  - exists [], [AddColor 999 999 999 "Max White"].
    split; [constructor | reflexivity].
  - lia.
Defined.

(** ** Retention of an entry in the cache *)

Lemma cache_find_app_notin (k : key) (pre l : ColorLookup.lru) :
  ~ In k (map fst pre) ->
  ColorLookup.cache_find k (pre ++ l) = ColorLookup.cache_find k l.
Proof.
  induction pre as [|[k' v'] pre IH]; simpl; intros H; [reflexivity|].
  destruct (key_eqb k' k) eqn:E.
  - apply key_eqb_eq in E. tauto.
  - apply IH. tauto.
Qed.

Lemma cache_remove_app_notin (k : key) (pre l : ColorLookup.lru) :
  ~ In k (map fst pre) ->
  ColorLookup.cache_remove k (pre ++ l) = pre ++ ColorLookup.cache_remove k l.
Proof.
  induction pre as [|[k' v'] pre IH]; simpl; intros H; [reflexivity|].
  destruct (key_eqb k' k) eqn:E.
  - apply key_eqb_eq in E. tauto.
  - f_equal. apply IH. tauto.
Qed.

Lemma first_occurrence (k : key) (l : ColorLookup.lru) :
  In k (map fst l) ->
  exists p1 v p2, l = p1 ++ (k, v) :: p2 /\ ~ In k (map fst p1).
Proof.
  induction l as [|[k' v'] l IH]; simpl; intros H; [destruct H|].
  destruct (key_eq_dec k' k) as [E | E].
  - subst k'. exists [], v', l. split; [reflexivity | simpl; tauto].
  - destruct H as [H | H]; [contradiction|].
    destruct (IH H) as (p1 & v & p2 & -> & Hn).
    exists ((k', v') :: p1), v, p2. split; [reflexivity|].
    simpl. intros [H' | H']; [apply E, H' | apply Hn, H'].
Qed.

Lemma retained_find (k : key) (v : string) (recent : list key)
      (c : ColorLookup.lru) :
  retained k v recent c -> ColorLookup.cache_find k c = Some v.
Proof.
  intros (pre & post & -> & Hn & _ & _).
  rewrite cache_find_app_notin by assumption.
  simpl. rewrite key_eqb_refl. reflexivity.
Qed.

Lemma retained_weaken (k : key) (v : string) (recent recent' : list key)
      (c : ColorLookup.lru) :
  incl recent recent' -> retained k v recent c -> retained k v recent' c.
Proof.
  intros Hincl (pre & post & -> & Hn & Hnd & Hin).
  exists pre, post. repeat split; auto. eapply incl_tran; eassumption.
Qed.

Lemma retained_front (k : key) (v : string) (recent : list key)
      (c : ColorLookup.lru) :
  retained k v recent ((k, v) :: c).
Proof.
  exists [], c. repeat split; simpl; auto.
  - constructor.
  - intros x [].
Qed.

Lemma retained_hit (k k' : key) (v v' : string) (recent : list key)
      (c : ColorLookup.lru) :
  retained k v recent c ->
  ColorLookup.cache_find k' c = Some v' ->
  retained k v (k' :: recent) (ColorLookup.cache_hit k' v' c).
Proof.
  intros Hret Hfind. unfold ColorLookup.cache_hit.
  destruct (key_eq_dec k' k) as [E | E].
  - subst k'. rewrite (retained_find _ _ _ _ Hret) in Hfind.
    inversion Hfind; subst. apply retained_front.
  - destruct Hret as (pre & post & -> & Hn & Hnd & Hin).
    destruct (in_dec key_eq_dec k' (map fst pre)) as [Hpre | Hpre].
    + destruct (first_occurrence _ _ Hpre) as (p1 & v0 & p2 & -> & Hn1).
      rewrite <- app_assoc. rewrite cache_remove_app_notin by assumption.
      simpl. rewrite key_eqb_refl.
      exists ((k', v') :: p1 ++ p2), post.
      rewrite map_app in Hn, Hnd, Hin. simpl in Hn, Hnd, Hin.
      split; [simpl; rewrite <- app_assoc; reflexivity|].
      simpl. rewrite map_app. split; [|split].
      * rewrite in_app_iff in *. simpl in Hn. intuition congruence.
      * constructor; [apply NoDup_remove_2, Hnd | apply NoDup_remove_1 in Hnd; exact Hnd].
      * intros x [Hx | Hx]; [left; exact Hx | right; apply Hin].
        rewrite in_app_iff in *. simpl. tauto.
    + rewrite cache_remove_app_notin by assumption.
      simpl. assert (key_eqb k k' = false) as -> by (apply key_eqb_neq; congruence).
      exists ((k', v') :: pre), (ColorLookup.cache_remove k' post).
      split; [reflexivity|]. simpl. split; [|split].
      * intuition congruence.
      * constructor; assumption.
      * intros x [Hx | Hx]; [left; exact Hx | right; apply Hin, Hx].
Qed.

Lemma removelast_middle {A : Type} (l : list A) (a : A) (l' : list A) :
  l' <> [] -> removelast (l ++ a :: l') = l ++ a :: removelast l'.
Proof.
  intros H. rewrite removelast_app by discriminate.
  simpl. destruct l'; [congruence | reflexivity].
Qed.

Lemma retained_miss (k k' : key) (v v' : string) (recent : list key)
      (c : ColorLookup.lru) :
  retained k v recent c ->
  ColorLookup.cache_find k' c = None ->
  (List.length (nodup key_eq_dec (k' :: recent)) < ColorLookup.maxsize)%nat ->
  retained k v (k' :: recent) (ColorLookup.cache_miss k' v' c).
Proof.
  intros (pre & post & -> & Hn & Hnd & Hin) Hfind Hlen.
  apply cache_find_None in Hfind. rewrite map_app in Hfind. simpl in Hfind.
  assert (k' <> k /\ ~ In k' (map fst pre)) as [Hkk Hk'pre].
  { rewrite in_app_iff in Hfind. simpl in Hfind. intuition congruence. }
  assert (S (List.length pre) < ColorLookup.maxsize)%nat as Hshort.
  { eapply Nat.le_lt_trans; [|exact Hlen].
    rewrite <- (length_map fst pre).
    change (S (List.length (map fst pre)))
      with (List.length (k' :: map fst pre)).
    apply NoDup_incl_length; [constructor; assumption|].
    intros x Hx. apply nodup_In. destruct Hx as [Hx | Hx];
      [left; exact Hx | right; apply Hin, Hx]. }
  unfold ColorLookup.cache_miss.
  destruct (ColorLookup.maxsize <=? _)%nat eqn:Efull.
  - apply Nat.leb_le in Efull. rewrite length_app in Efull. simpl in Efull.
    assert (post <> []) as Hpost.
    { intros ->. simpl in Efull. lia. }
    rewrite removelast_middle by assumption.
    exists ((k', v') :: pre), (removelast post).
    split; [reflexivity|]. simpl. split; [|split].
    + intuition congruence.
    + constructor; assumption.
    + intros x [Hx | Hx]; [left; exact Hx | right; apply Hin, Hx].
  - exists ((k', v') :: pre), post.
    split; [reflexivity|]. simpl. split; [|split].
    + intuition congruence.
    + constructor; assumption.
    + intros x [Hx | Hx]; [left; exact Hx | right; apply Hin, Hx].
Qed.

Lemma retained_get_color_name (k : key) (v : string) (recent : list key)
      (r g b : Z) (s : ColorLookup.t) :
  retained k v recent (ColorLookup.cache s) ->
  (List.length (nodup key_eq_dec ((r, g, b) :: recent)) < ColorLookup.maxsize)%nat ->
  retained k v ((r, g, b) :: recent)
           (ColorLookup.cache (snd (ColorLookup.get_color_name r g b s))).
Proof.
  intros Hret Hlen. pose proof (wrapped_cache r g b s) as Hc.
  unfold ColorLookup.get_color_name.
  destruct (ColorLookup.cache_find (r, g, b) (ColorLookup.cache s)) as [v'|] eqn:E.
  - cbn [fst snd ColorLookup.cache]. apply retained_hit; assumption.
  - destruct (ColorLookup.get_color_name_wrapped r g b s) as [v' s'].
    cbn [fst snd ColorLookup.cache] in *. rewrite Hc.
    apply retained_miss; assumption.
Qed.

Lemma nodup_length_incl (l l' : list key) :
  incl l l' ->
  (List.length (nodup key_eq_dec l) <= List.length (nodup key_eq_dec l'))%nat.
Proof.
  intros H. apply NoDup_incl_length; [apply NoDup_nodup|].
  intros x Hx. apply nodup_In. apply H. apply nodup_In in Hx. exact Hx.
Qed.

Lemma retained_run (k : key) (v : string) (between : list call) :
  forall (recent : list key) (s : ColorLookup.t),
    forallb read_only between = true ->
    retained k v recent (ColorLookup.cache s) ->
    (List.length (nodup key_eq_dec (resolved_keys between ++ recent))
     < ColorLookup.maxsize)%nat ->
    exists recent', retained k v recent' (ColorLookup.cache (run between s)).
Proof.
  induction between as [|c between IH]; intros recent s Hro Hret Hlen.
  - exists recent. exact Hret.
  - simpl in Hro. apply andb_true_iff in Hro as [Hc Hro].
    rewrite run_cons.
    destruct c as [r g b | | | r g b th]; try discriminate.
    + change (resolved_keys (GetColorName r g b :: between) ++ recent)
        with ((r, g, b) :: (resolved_keys between ++ recent)) in Hlen.
      apply (IH ((r, g, b) :: recent)); [exact Hro | |].
      * apply retained_get_color_name; [exact Hret|].
        eapply Nat.le_lt_trans; [|exact Hlen].
        apply nodup_length_incl. intros x [Hx | Hx]; [left; exact Hx|].
        right. apply in_or_app. right. exact Hx.
      * eapply Nat.le_lt_trans; [|exact Hlen].
        apply nodup_length_incl. intros x Hx.
        apply in_app_or in Hx as [Hx | [Hx | Hx]].
        -- right. apply in_or_app. left. exact Hx.
        -- left. exact Hx.
        -- right. apply in_or_app. right. exact Hx.
    + apply (IH recent); assumption.
Qed.

(** ** Negative caching *)

Lemma import_items_absent (k : key) (items : list (string * string)) :
  forall t t',
    existsb (fun it => match ColorDatabase.unpack_rgb (fst it) with
                       | Ok k' => key_eqb k' k
                       | Raise _ => false
                       end) items = false ->
    ColorDatabase.import_items items t = Ok t' ->
    rows_at k t' = rows_at k t.
Proof.
  induction items as [|[rgb_str name] items IH]; simpl; intros t t' Hex H.
  - inversion H; reflexivity.
  - apply orb_false_iff in Hex as [Hk Hex].
    destruct (ColorDatabase.unpack_rgb rgb_str) as [k'|e]; simpl in H;
      [|discriminate].
    rewrite (IH _ _ Hex H). apply rows_at_insert_other.
    apply key_eqb_neq in Hk. congruence.
Qed.

Lemma step_absent (k : key) (c : call) (s : ColorLookup.t) :
  adds k c = false ->
  rows_at k (ColorDatabase.colors (ColorLookup.db (step c s)))
  = rows_at k (ColorDatabase.colors (ColorLookup.db s)).
Proof.
  destruct c as [r g b | r g b name | items | r g b th];
    cbn [adds step]; intros H.
  - rewrite get_color_name_db. reflexivity.
  - apply rows_at_insert_other. apply key_eqb_neq in H. congruence.
  - unfold ColorLookup.import_from_json, ColorDatabase.bulk_import_from_json.
    cbn [ColorDatabase.connect ColorDatabase.colors].
    destruct (ColorDatabase.import_items items _) as [t'|e] eqn:E;
      cbn [snd ColorLookup.cache_clear ColorLookup.db ColorDatabase.colors
           ColorDatabase.connect].
    + eapply import_items_absent; eassumption.
    + reflexivity.
  - reflexivity.
Qed.

Lemma run_absent (k : key) (cs : list call) :
  forall s, forallb (fun c => negb (adds k c)) cs = true ->
    rows_at k (ColorDatabase.colors (ColorLookup.db (run cs s)))
    = rows_at k (ColorDatabase.colors (ColorLookup.db s)).
Proof.
  induction cs as [|c cs IH]; intros s H; simpl in *.
  - reflexivity.
  - apply andb_true_iff in H as [Hc Hcs].
    rewrite (IH _ Hcs). apply step_absent.
    destruct (adds k c); [discriminate | reflexivity].
Qed.

Lemma get_color_name_front (r g b : Z) (s : ColorLookup.t) :
  exists c,
    ColorLookup.cache (snd (ColorLookup.get_color_name r g b s))
    = ((r, g, b), fst (ColorLookup.get_color_name r g b s)) :: c.
Proof.
  unfold ColorLookup.get_color_name.
  destruct (ColorLookup.cache_find _ _) as [v|].
  - eexists; reflexivity.
  - destruct (ColorLookup.get_color_name_wrapped r g b s) as [v s'].
    unfold ColorLookup.cache_miss. eexists; reflexivity.
Qed.

(** A lookup answered by the cache leaves the database untouched: no
    connection is opened. *)
Lemma get_color_name_hit (r g b : Z) (v : string) (s : ColorLookup.t) :
  ColorLookup.cache_find (r, g, b) (ColorLookup.cache s) = Some v ->
  fst (ColorLookup.get_color_name r g b s) = v
  /\ ColorLookup.db (snd (ColorLookup.get_color_name r g b s))
     = ColorLookup.db s.
Proof.
  intros H. unfold ColorLookup.get_color_name. rewrite H. split; reflexivity.
Qed.

(** C2. A key in range that is absent from the file and that no call has
    added resolves to ["Unknown"]; after that first lookup, as long as the
    calls in between write nothing and look up fewer than 2048 distinct keys,
    a repeated lookup returns ["Unknown"] again and leaves the database
    untouched: it opens no connection. *)
Theorem negative_caching :
  forall (file : table) (before between : list call) (r g b : Z),
    0 <= r <= 999 /\ 0 <= g <= 999 /\ 0 <= b <= 999 ->
    (forall name, ~ In ((r, g, b), name) file) ->
    forallb (fun c => negb (adds (r, g, b) c)) before = true ->
    forallb read_only between = true ->
    (List.length (nodup key_eq_dec (resolved_keys between))
     < ColorLookup.maxsize)%nat ->
    let s0 := run before (ColorLookup.init file) in
    let first := ColorLookup.get_color_name r g b s0 in
    let s2 := run between (snd first) in
    let again := ColorLookup.get_color_name r g b s2 in
    fst first = "Unknown"
    /\ fst again = "Unknown"
    /\ ColorLookup.db (snd again) = ColorLookup.db s2.
Proof.
  intros file before between r g b Hr Hfile Hbefore Hro Hlen s0 first s2 again.
  apply in_range_spec in Hr.
  assert (coherent s0) as Hco.
  { apply (run_invariant coherent).
    - intros c s; apply step_coherent.
    - intros r' g' b' v []. }
  assert (fst first = "Unknown") as Hfirst.
  { subst first. destruct (get_color_name_coherent r g b s0 Hco) as [-> _].
    apply resolved_absent; [exact Hr|].
    subst s0. rewrite run_absent by exact Hbefore.
    apply rows_at_nil. exact Hfile. }
  split; [exact Hfirst|].
  assert (retained (r, g, b) "Unknown" [] (ColorLookup.cache (snd first))) as Hret.
  { destruct (get_color_name_front r g b s0) as [c Hc].
    fold first in Hc. rewrite Hc, Hfirst. apply retained_front. }
  destruct (retained_run (r, g, b) "Unknown" between [] (snd first) Hro Hret)
    as [recent Hret2].
  { rewrite app_nil_r. exact Hlen. }
  apply retained_find in Hret2. fold s2 in Hret2.
  apply get_color_name_hit, Hret2.
Qed.

Lemma negative_caching_witness :
  let s0 := run [AddColor 255 0 0 "Bright Red"] (ColorLookup.init []) in
  let first := ColorLookup.get_color_name 100 100 100 s0 in
  let s2 := run [GetColorName 255 0 0; GetColorName 1 2 3;
                 GetColorName 100 100 100; FindSimilarColor 250 0 0 10]
                (snd first) in
  let again := ColorLookup.get_color_name 100 100 100 s2 in
  fst first = "Unknown"
  /\ fst again = "Unknown"
  /\ ColorLookup.db (snd again) = ColorLookup.db s2.
Proof.
  apply (negative_caching [] [AddColor 255 0 0 "Bright Red"]
           [GetColorName 255 0 0; GetColorName 1 2 3;
            GetColorName 100 100 100; FindSimilarColor 250 0 0 10]
           100 100 100).
  - lia.
  - intros name [].
  - reflexivity.
  - reflexivity.
  - apply Nat.ltb_lt. reflexivity.
Defined.

(** ** Bulk import *)

Lemma malformed_key_raises (rgb_str : string) :
  malformed_key rgb_str ->
  ColorDatabase.unpack_rgb rgb_str = Raise ValueError.
Proof.
  unfold malformed_key, ColorDatabase.unpack_rgb. intros H.
  destruct (Py.split "," rgb_str) as [|x [|y [|z [|w l]]]]; try reflexivity.
  destruct (Py.int x 10) as [r|[]] eqn:Ex; [|reflexivity].
  destruct (Py.int y 10) as [g|[]] eqn:Ey; [|reflexivity].
  destruct (Py.int z 10) as [b|[]] eqn:Ez; [|reflexivity].
  exfalso.
  repeat (apply Exists_cons in H as [H | H]; [congruence|]).
  inversion H.
Qed.

Lemma import_items_malformed (items : list (string * string)) :
  Exists (fun it => malformed_key (fst it)) items ->
  forall t, ColorDatabase.import_items items t = Raise ValueError.
Proof.
  induction 1 as [[rgb_str name] items H | [rgb_str name] items H IH];
    intros t; simpl.
  - simpl in H. rewrite (malformed_key_raises _ H). reflexivity.
  - destruct (ColorDatabase.unpack_rgb rgb_str) as [k|[]]; simpl; auto.
Qed.

Lemma import_items_applied (items : list (string * string)) :
  forall t t',
    ColorDatabase.import_items items t = Ok t' ->
    exists rows : list row,
      Forall2 (fun it rw => ColorDatabase.unpack_rgb (fst it) = Ok (fst rw)
                            /\ snd it = snd rw) items rows
      /\ t' = upsert_all rows t.
Proof.
  induction items as [|[rgb_str name] items IH]; simpl; intros t t' H.
  - inversion H; subst. exists []. split; [constructor | reflexivity].
  - destruct (ColorDatabase.unpack_rgb rgb_str) as [k|e] eqn:E; simpl in H;
      [|discriminate].
    destruct (IH _ _ H) as (rows & Hrows & ->).
    exists ((k, name) :: rows). split; [|reflexivity].
    constructor; [split; [exact E | reflexivity] | exact Hrows].
Qed.

(** C4. An import with an item whose key does not split into three
    integers raises, and leaves both the table and the cache as they were;
    whenever the import raises, table and cache are as they were; when it
    returns, every item has been upserted, in order, and the cache is
    empty. *)
Theorem import_from_json_atomic :
  forall (items : list (string * string)) (s : ColorLookup.t),
    let out := ColorLookup.import_from_json items s in
    (Exists (fun it => malformed_key (fst it)) items ->
     fst out = Raise ValueError)
    /\ (forall e, fst out = Raise e ->
        ColorDatabase.colors (ColorLookup.db (snd out))
        = ColorDatabase.colors (ColorLookup.db s)
        /\ ColorLookup.cache (snd out) = ColorLookup.cache s)
    /\ (fst out = Ok tt ->
        ColorLookup.cache (snd out) = []
        /\ exists rows : list row,
            Forall2 (fun it rw =>
                       ColorDatabase.unpack_rgb (fst it) = Ok (fst rw)
                       /\ snd it = snd rw) items rows
            /\ ColorDatabase.colors (ColorLookup.db (snd out))
               = upsert_all rows (ColorDatabase.colors (ColorLookup.db s))).
Proof.
  intros items s out. subst out.
  unfold ColorLookup.import_from_json, ColorDatabase.bulk_import_from_json.
  cbn [ColorDatabase.connect ColorDatabase.colors].
  split; [|split].
  - intros H. rewrite (import_items_malformed _ H). reflexivity.
  - intros e.
    destruct (ColorDatabase.import_items items _) as [t'|e']; simpl;
      [discriminate | auto].
  - destruct (ColorDatabase.import_items items _) as [t'|e'] eqn:E; simpl;
      [|discriminate].
    intros _. split; [reflexivity|]. apply import_items_applied, E.
Qed.

Lemma import_from_json_atomic_witness :
  let s := ColorLookup.mk (ColorDatabase.init [((255, 0, 0), "Bright Red")])
                          [((255, 0, 0), "Bright Red")] in
  let out := ColorLookup.import_from_json
               [("0,255,0", "Pure Green"); ("0,0,x", "Blue"); ("1,2", "Short")]
               s in
  fst out = Raise ValueError
  /\ ColorDatabase.colors (ColorLookup.db (snd out))
     = ColorDatabase.colors (ColorLookup.db s)
  /\ ColorLookup.cache (snd out) = ColorLookup.cache s.
Proof.
  intros s out.
  pose proof (import_from_json_atomic
                [("0,255,0", "Pure Green"); ("0,0,x", "Blue"); ("1,2", "Short")]
                s) as (Hraise & Hsame & _).
  assert (fst out = Raise ValueError) as E.
  { apply Hraise. apply Exists_cons_tl, Exists_cons_hd.
    unfold malformed_key. simpl.
    apply Exists_cons_tl, Exists_cons_tl, Exists_cons_hd. reflexivity. }
  split; [exact E | exact (Hsame ValueError E)].
Defined.

(** ** Similarity scan *)

Lemma insert_by_diff_perm (x : Sql.scored) (l : list Sql.scored) :
  Permutation (Sql.insert_by_diff x l) (x :: l).
Proof.
  induction l as [|y l IH]; simpl.
  - apply Permutation_refl.
  - destruct (snd x <=? snd y).
    + apply Permutation_refl.
    + eapply perm_trans; [apply perm_skip, IH | apply perm_swap].
Qed.

Lemma order_by_diff_perm (l : list Sql.scored) :
  Permutation (Sql.order_by_diff l) l.
Proof.
  induction l as [|x l IH]; simpl.
  - apply perm_nil.
  - eapply perm_trans; [apply insert_by_diff_perm | apply perm_skip, IH].
Qed.

Lemma insert_by_diff_sorted (x : Sql.scored) (l : list Sql.scored) :
  Sorted (fun a b => snd a <= snd b) l ->
  Sorted (fun a b => snd a <= snd b) (Sql.insert_by_diff x l).
Proof.
  induction l as [|y l IH]; simpl; intros Hs.
  - repeat constructor.
  - destruct (snd x <=? snd y) eqn:E.
    + apply Z.leb_le in E. constructor; [exact Hs|]. constructor. exact E.
    + apply Z.leb_gt in E. inversion Hs as [|? ? Hs' Hhd]; subst.
      constructor; [apply IH, Hs'|].
      destruct l as [|z l]; simpl.
      * constructor. lia.
      * destruct (snd x <=? snd z); constructor; [lia|].
        inversion Hhd; assumption.
Qed.

Lemma order_by_diff_sorted (l : list Sql.scored) :
  StronglySorted (fun a b => snd a <= snd b) (Sql.order_by_diff l).
Proof.
  apply Sorted_StronglySorted.
  - intros a b c; lia.
  - induction l as [|x l IH]; simpl.
    + constructor.
    + apply insert_by_diff_sorted, IH.
Qed.

Lemma scored_rows (c : key) (threshold : Z) (t : table) :
  map fst (filter (fun x : Sql.scored => snd x <=? threshold)
                  (map (fun rw => (rw, Sql.diff (fst rw) c)) t))
  = filter (fun rw => Sql.diff (fst rw) c <=? threshold) t.
Proof.
  induction t as [|rw t IH]; simpl; [reflexivity|].
  destruct (Sql.diff (fst rw) c <=? threshold); simpl; [f_equal|]; exact IH.
Qed.

Lemma diff_zero (k c : key) : Sql.diff k c <= 0 -> k = c.
Proof.
  destruct k as [[r g] b], c as [[cr cg] cb]. unfold Sql.diff. intros H.
  assert (r = cr /\ g = cg /\ b = cb) as (-> & -> & ->) by lia. reflexivity.
Qed.

Lemma select_similar_In (c : key) (threshold : Z) (t : table) (x : Sql.scored) :
  In x (Sql.select_similar c threshold t)
  <-> In (fst x) t /\ snd x = Sql.diff (fst (fst x)) c /\ snd x <= threshold.
Proof.
  unfold Sql.select_similar.
  split.
  - intros H. apply (Permutation_in _ (order_by_diff_perm _)) in H.
    apply filter_In in H as [H Hle]. apply Z.leb_le in Hle.
    apply in_map_iff in H as (rw & <- & Hin). cbn [fst snd] in *. auto.
  - intros (Hin & Hd & Hle).
    apply (Permutation_in _ (Permutation_sym (order_by_diff_perm _))).
    apply filter_In. split; [|apply Z.leb_le, Hle].
    apply in_map_iff. exists (fst x). split; [|exact Hin].
    destruct x as [rw d]; cbn [fst snd] in *. subst d. reflexivity.
Qed.

(** C5. On the scans that SQLite computes in its integers,
    [find_similar_color(r, g, b, threshold)] returns exactly the rows of
    the table whose Manhattan distance to [(r, g, b)] is at most the
    threshold, each with that distance in its last column, in non-decreasing
    order of distance; with threshold 0 every returned row has the key
    [(r, g, b)]. *)
Theorem find_similar_color_scan :
  forall (s : ColorLookup.t) (r g b threshold : Z),
    scan_exact (r, g, b) threshold (ColorDatabase.colors (ColorLookup.db s))
    = true ->
    let found := fst (ColorLookup.find_similar_color r g b threshold s) in
    Permutation (map fst found)
      (filter (fun rw : row =>
                 let '(r', g', b') := fst rw in
                 Z.abs (r' - r) + Z.abs (g' - g) + Z.abs (b' - b)
                 <=? threshold)
              (ColorDatabase.colors (ColorLookup.db s)))
    /\ Forall (fun x : Sql.scored =>
                 let '(r', g', b') := fst (fst x) in
                 snd x = Z.abs (r' - r) + Z.abs (g' - g) + Z.abs (b' - b))
              found
    /\ StronglySorted (fun x y : Sql.scored => snd x <= snd y) found
    /\ Forall (fun x : Sql.scored => fst (fst x) = (r, g, b))
              (fst (ColorLookup.find_similar_color r g b 0 s)).
Proof.
  intros s r g b threshold _ found. subst found.
  unfold ColorLookup.find_similar_color.
  cbn [fst ColorDatabase.connect ColorDatabase.colors].
  split; [|split; [|split]].
  - unfold Sql.select_similar.
    eapply perm_trans; [apply Permutation_map, order_by_diff_perm|].
    rewrite scored_rows.
    erewrite filter_ext; [apply Permutation_refl|].
    intros [[[r' g'] b'] n]. reflexivity.
  - apply Forall_forall. intros x Hx.
    apply select_similar_In in Hx as (_ & Hd & _).
    destruct x as [[[[r' g'] b'] n] d]. exact Hd.
  - apply order_by_diff_sorted.
  - apply Forall_forall. intros x Hx.
    apply select_similar_In in Hx as (_ & Hd & Hle).
    apply diff_zero. lia.
Qed.

Lemma find_similar_color_scan_witness :
  let s := run [AddColor 255 0 0 "Bright Red"; AddColor 0 255 0 "Pure Green";
                AddColor 0 0 255 "Deep Blue"; AddColor 250 5 0 "Red"]
               (ColorLookup.init []) in
  let found := fst (ColorLookup.find_similar_color 250 0 0 600 s) in
  Permutation (map fst found)
    (filter (fun rw : row =>
               let '(r', g', b') := fst rw in
               Z.abs (r' - 250) + Z.abs (g' - 0) + Z.abs (b' - 0) <=? 600)
            (ColorDatabase.colors (ColorLookup.db s)))
  /\ Forall (fun x : Sql.scored =>
               let '(r', g', b') := fst (fst x) in
               snd x = Z.abs (r' - 250) + Z.abs (g' - 0) + Z.abs (b' - 0))
            found
  /\ StronglySorted (fun x y : Sql.scored => snd x <= snd y) found
  /\ Forall (fun x : Sql.scored => fst (fst x) = (250, 0, 0))
            (fst (ColorLookup.find_similar_color 250 0 0 0 s)).
Proof.
  intros s. apply (find_similar_color_scan s 250 0 0 600). reflexivity.
Defined.

(** ** Hexadecimal conversions *)

Lemma all_ascii_In (a : ascii) : In a all_ascii.
Proof.
  unfold all_ascii. rewrite <- (ascii_nat_embedding a).
  apply in_map, in_seq. pose proof (nat_ascii_bounded a). lia.
Qed.

Lemma all_pairs_checked :
  forallb (fun a => forallb (pair_check a) all_ascii) all_ascii = true.
Proof. vm_compute. reflexivity. Qed.

Lemma all_singles_checked : forallb single_check all_ascii = true.
Proof. vm_compute. reflexivity. Qed.

Lemma all_bytes_checked :
  forallb byte_check (map Z.of_nat (seq 0 256)) = true.
Proof. vm_compute. reflexivity. Qed.

Lemma pair_checked (a b : ascii) : pair_check a b = true.
Proof.
  pose proof all_pairs_checked as H.
  rewrite forallb_forall in H. specialize (H a (all_ascii_In a)).
  rewrite forallb_forall in H. exact (H b (all_ascii_In b)).
Qed.

Lemma single_checked (a : ascii) : single_check a = true.
Proof.
  pose proof all_singles_checked as H.
  rewrite forallb_forall in H. exact (H a (all_ascii_In a)).
Qed.

Lemma byte_checked (z : Z) : 0 <= z <= 255 -> byte_check z = true.
Proof.
  intros Hz. pose proof all_bytes_checked as H.
  rewrite forallb_forall in H. apply H.
  rewrite <- (Z2Nat.id z) by lia. apply in_map, in_seq. lia.
Qed.

Lemma raises_spec {A : Type} (m : result A) :
  raises m = true -> m = Raise ValueError.
Proof. destruct m as [a|[]]; [discriminate | reflexivity]. Qed.

Lemma returns_spec (m : result Z) (v : Z) : returns m v = true -> m = Ok v.
Proof.
  destruct m as [w|e]; simpl; [|discriminate].
  intros H. apply Z.eqb_eq in H. congruence.
Qed.

Lemma int16_pair (a b : ascii) :
  is_hex_digit a = true -> is_hex_digit b = true ->
  Py.int (String a (String b EmptyString)) 16 = Ok (hex_pair a b).
Proof.
  intros Ha Hb. pose proof (pair_checked a b) as H. unfold pair_check in H.
  rewrite Ha, Hb in H. simpl in H.
  apply andb_true_iff in H as [H _]. apply andb_true_iff in H as [H _].
  apply returns_spec, H.
Qed.

Lemma int16_pair_bad (a b : ascii) :
  int16_tolerated a && int16_tolerated b = false ->
  Py.int (String a (String b EmptyString)) 16 = Raise ValueError.
Proof.
  intros Hab. pose proof (pair_checked a b) as H. unfold pair_check in H.
  rewrite Hab in H.
  apply andb_true_iff in H as [H _]. apply andb_true_iff in H as [_ H].
  apply raises_spec, H.
Qed.

Lemma int16_single_bad (a : ascii) :
  int16_tolerated a = false ->
  Py.int (String a EmptyString) 16 = Raise ValueError.
Proof.
  intros Ha. pose proof (single_checked a) as H. unfold single_check in H.
  rewrite Ha in H.
  apply andb_true_iff in H as [H _]. apply andb_true_iff in H as [H _].
  apply raises_spec, H.
Qed.

Lemma int16_doubled_bad (a : ascii) :
  is_hex_digit a = false ->
  Py.int (String a (String a EmptyString)) 16 = Raise ValueError.
Proof.
  intros Ha. pose proof (single_checked a) as H. unfold single_check in H.
  rewrite Ha in H.
  apply andb_true_iff in H as [H _]. apply andb_true_iff in H as [_ H].
  apply raises_spec, H.
Qed.

Lemma hex_digit_not_hash (a : ascii) :
  is_hex_digit a = true -> Ascii.eqb a "#" = false.
Proof.
  intros Ha. pose proof (single_checked a) as H. unfold single_check in H.
  rewrite Ha in H. apply andb_true_iff in H as [_ H].
  destruct (Ascii.eqb a "#"); [discriminate | reflexivity].
Qed.

Lemma format_02x_pair (a b : ascii) :
  is_lower_hex_digit a = true -> is_lower_hex_digit b = true ->
  Py.format_02x (hex_pair a b) = String a (String b EmptyString).
Proof.
  intros Ha Hb. pose proof (pair_checked a b) as H. unfold pair_check in H.
  rewrite Ha, Hb in H. apply andb_true_iff in H as [_ H]. simpl in H.
  apply String.eqb_eq, H.
Qed.

Lemma format_02x_byte (z : Z) :
  0 <= z <= 255 ->
  exists a b,
    Py.format_02x z = String a (String b EmptyString)
    /\ is_lower_hex_digit a = true /\ is_lower_hex_digit b = true
    /\ hex_pair a b = z.
Proof.
  intros Hz. pose proof (byte_checked z Hz) as H. unfold byte_check in H.
  destruct (Py.format_02x z) as [|a [|b [|c s]]]; try discriminate.
  exists a, b. rewrite !andb_true_iff, Z.eqb_eq in H. tauto.
Qed.

Lemma lower_hex_is_hex (a : ascii) :
  is_lower_hex_digit a = true -> is_hex_digit a = true.
Proof.
  unfold is_lower_hex_digit, is_hex_digit, Py.digit_value.
  destruct ((48 <=? Py.code a) && (Py.code a <=? 57)) eqn:E1; simpl.
  - intros _. apply andb_true_iff in E1 as [H1 H2].
    apply Z.leb_le in H1, H2. apply Z.ltb_lt. lia.
  - intros H. apply andb_true_iff in H as [H1 H2].
    apply Z.leb_le in H1, H2.
    assert ((97 <=? Py.code a) && (Py.code a <=? 122) = true) as ->.
    { apply andb_true_iff. split; apply Z.leb_le; lia. }
    apply Z.ltb_lt. lia.
Qed.

Lemma len_eqb_3 (h : string) :
  (Py.len h =? 3) = Nat.eqb (String.length h) 3.
Proof.
  unfold Py.len. destruct (Nat.eqb (String.length h) 3) eqn:E.
  - apply Nat.eqb_eq in E. rewrite E. reflexivity.
  - apply Nat.eqb_neq in E. apply Z.eqb_neq. lia.
Qed.

Lemma hex_to_rgb_unfold (s : string) :
  ColorLookup.hex_to_rgb s
  = let h := Py.lstrip "#" s in
    let h' := if Nat.eqb (String.length h) 3 then Py.double_chars h else h in
    r <- Py.int (Py.slice h' 0 2) 16 ;;
    g <- Py.int (Py.slice h' 2 4) 16 ;;
    b <- Py.int (Py.slice h' 4 6) 16 ;;
    Ok (r, g, b).
Proof. unfold ColorLookup.hex_to_rgb. rewrite len_eqb_3. reflexivity. Qed.

Lemma lstrip_idem (ch : ascii) (s : string) :
  Py.lstrip ch (Py.lstrip ch s) = Py.lstrip ch s.
Proof.
  induction s as [|c s IH]; simpl; [reflexivity|].
  destruct (Ascii.eqb c ch) eqn:E; [exact IH|].
  simpl. rewrite E. reflexivity.
Qed.

Lemma lstrip_take (ch : ascii) (n : nat) (h : string) :
  Py.lstrip ch h = h -> Py.lstrip ch (Py.take (S n) h) = Py.take (S n) h.
Proof.
  destruct h as [|c h]; simpl; [reflexivity|].
  destruct (Ascii.eqb c ch) eqn:E; [|reflexivity].
  intros H. exfalso.
  assert (String.length (Py.lstrip ch h) <= String.length h)%nat as Hle.
  { clear. induction h as [|c h IH]; simpl; [lia|].
    destruct (Ascii.eqb c ch); simpl; lia. }
  rewrite H in Hle. simpl in Hle. lia.
Qed.

Lemma int16_empty : Py.int EmptyString 16 = Raise ValueError.
Proof. reflexivity. Qed.

Lemma bind_raise_later {A B : Type} (m : result A) (k : A -> result B) :
  (forall a, k a = Raise ValueError) -> bind m k = Raise ValueError.
Proof. intros H. destruct m as [a|[]]; [apply H | reflexivity]. Qed.

Ltac slices :=
  cbn [String.length Nat.eqb Py.double_chars Py.slice Py.take Py.drop Nat.sub].

Ltac raise_later :=
  repeat first [ reflexivity
               | rewrite int16_empty; reflexivity
               | apply bind_raise_later; intros ? ].

Lemma hex_to_rgb_six (a b c d e f : ascii) (rest : string) :
  is_hex_digit a = true -> is_hex_digit b = true -> is_hex_digit c = true ->
  is_hex_digit d = true -> is_hex_digit e = true -> is_hex_digit f = true ->
  ColorLookup.hex_to_rgb
    (String a (String b (String c (String d (String e (String f rest))))))
  = Ok (hex_pair a b, hex_pair c d, hex_pair e f).
Proof.
  intros Ha Hb Hc Hd He Hf. rewrite hex_to_rgb_unfold.
  cbn [Py.lstrip]. rewrite (hex_digit_not_hash a Ha).
  cbv zeta. slices.
  rewrite (int16_pair a b), (int16_pair c d), (int16_pair e f) by assumption.
  reflexivity.
Qed.

Lemma hex_to_rgb_lstrip (s : string) :
  ColorLookup.hex_to_rgb (Py.lstrip "#" s) = ColorLookup.hex_to_rgb s.
Proof. rewrite !hex_to_rgb_unfold, lstrip_idem. reflexivity. Qed.

(** C6, as stated, fails: a string of seven hexadecimal digits is not
    rejected, its first six digits are converted. *)
Lemma hex_to_rgb_seven_digits :
  ColorLookup.hex_to_rgb "1234567" = Ok (18, 52, 86).
Proof. reflexivity. Qed.

(** C6, amended.  On strings of characters below code point 256,
    [hex_to_rgb] strips the leading ['#'] characters; three
    hexadecimal digits are converted as the six digits obtained by doubling
    each, six hexadecimal digits by pairs, so that ["f0a"] and ["ff00aa"] give
    (255, 0, 170) and ["#FFFFFF"] gives (255, 255, 255).  It raises
    [ValueError] when fewer than three or exactly four characters are left
    after stripping (["12"]), when one of three characters is not a
    hexadecimal digit, and when one of the first six of five characters or
    more is neither a hexadecimal digit, nor a sign, nor white space
    (["zzzzzz"]).  Characters after the sixth are ignored. *)
Theorem hex_to_rgb_forms :
  (ColorLookup.hex_to_rgb "f0a" = Ok (255, 0, 170)
   /\ ColorLookup.hex_to_rgb "ff00aa" = Ok (255, 0, 170)
   /\ ColorLookup.hex_to_rgb "#FFFFFF" = Ok (255, 255, 255)
   /\ ColorLookup.hex_to_rgb "12" = Raise ValueError
   /\ ColorLookup.hex_to_rgb "zzzzzz" = Raise ValueError)
  /\ forall s : string,
      let h := Py.lstrip "#" s in
      (String.length h = 3%nat -> all_chars is_hex_digit h = true ->
       exists a b c,
         h = String a (String b (String c EmptyString))
         /\ ColorLookup.hex_to_rgb s
            = Ok (hex_pair a a, hex_pair b b, hex_pair c c)
         /\ ColorLookup.hex_to_rgb (Py.double_chars h)
            = ColorLookup.hex_to_rgb s)
      /\ (String.length h = 6%nat -> all_chars is_hex_digit h = true ->
          exists a b c d e f,
            h = String a (String b (String c (String d (String e
                  (String f EmptyString)))))
            /\ ColorLookup.hex_to_rgb s
               = Ok (hex_pair a b, hex_pair c d, hex_pair e f))
      /\ ((String.length h < 3)%nat \/ String.length h = 4%nat ->
          ColorLookup.hex_to_rgb s = Raise ValueError)
      /\ (String.length h = 3%nat -> all_chars is_hex_digit h = false ->
          ColorLookup.hex_to_rgb s = Raise ValueError)
      /\ ((5 <= String.length h)%nat ->
          all_chars int16_tolerated (Py.take 6 h) = false ->
          ColorLookup.hex_to_rgb s = Raise ValueError)
      /\ ((6 <= String.length h)%nat ->
          ColorLookup.hex_to_rgb s = ColorLookup.hex_to_rgb (Py.take 6 h)).
Proof.
  split; [repeat split; reflexivity|].
  intros s h.
  assert (Py.lstrip "#" h = h) as Hh by apply lstrip_idem.
  rewrite <- (hex_to_rgb_lstrip s). fold h. clearbody h. clear s.
  split; [|split; [|split; [|split; [|split]]]].
  - intros Hlen Hhex.
    destruct h as [|a [|b [|c [|d h]]]]; try discriminate Hlen.
    unfold all_chars in Hhex. cbn [list_ascii_of_string forallb] in Hhex.
    rewrite !andb_true_iff in Hhex. destruct Hhex as (Ha & Hb & Hc & _).
    exists a, b, c. split; [reflexivity|].
    assert (ColorLookup.hex_to_rgb (String a (String b (String c EmptyString)))
            = Ok (hex_pair a a, hex_pair b b, hex_pair c c)) as E.
    { rewrite hex_to_rgb_unfold. rewrite Hh. cbv zeta. slices.
      rewrite (int16_pair a a), (int16_pair b b), (int16_pair c c)
        by assumption.
      reflexivity. }
    split; [exact E|]. rewrite E. cbn [Py.double_chars].
    apply hex_to_rgb_six; assumption.
  - intros Hlen Hhex.
    destruct h as [|a [|b [|c [|d [|e [|f [|x h]]]]]]]; try discriminate Hlen.
    unfold all_chars in Hhex. cbn [list_ascii_of_string forallb] in Hhex.
    rewrite !andb_true_iff in Hhex.
    destruct Hhex as (Ha & Hb & Hc & Hd & He & Hf & _).
    exists a, b, c, d, e, f. split; [reflexivity|].
    apply hex_to_rgb_six; assumption.
  - intros Hlen. rewrite hex_to_rgb_unfold, Hh. cbv zeta.
    destruct h as [|a [|b [|c [|d [|e h]]]]]; simpl in Hlen;
      try (exfalso; lia); slices; raise_later.
  - intros Hlen Hhex. rewrite hex_to_rgb_unfold, Hh. cbv zeta.
    destruct h as [|a [|b [|c [|d h]]]]; try discriminate Hlen.
    unfold all_chars in Hhex. cbn [list_ascii_of_string forallb] in Hhex.
    slices.
    destruct (is_hex_digit a) eqn:Ha;
      [|rewrite (int16_doubled_bad a Ha); reflexivity].
    destruct (is_hex_digit b) eqn:Hb;
      [|rewrite (int16_doubled_bad b Hb); raise_later].
    destruct (is_hex_digit c) eqn:Hc;
      [discriminate Hhex|rewrite (int16_doubled_bad c Hc); raise_later].
  - intros Hlen Hbad. rewrite hex_to_rgb_unfold, Hh. cbv zeta.
    destruct h as [|a [|b [|c [|d [|e [|f h]]]]]]; simpl in Hlen;
      try (exfalso; lia);
      unfold all_chars in Hbad;
      cbn [Py.take list_ascii_of_string forallb] in Hbad; slices.
    + destruct (int16_tolerated a && int16_tolerated b) eqn:Hab;
        [|rewrite (int16_pair_bad a b Hab); reflexivity].
      destruct (int16_tolerated c && int16_tolerated d) eqn:Hcd;
        [|rewrite (int16_pair_bad c d Hcd); raise_later].
      destruct (int16_tolerated e) eqn:He;
        [|rewrite (int16_single_bad e He); raise_later].
      apply andb_true_iff in Hab as [Ha Hb].
      apply andb_true_iff in Hcd as [Hc Hd].
      rewrite Ha, Hb, Hc, Hd in Hbad. discriminate Hbad.
    + destruct (int16_tolerated a && int16_tolerated b) eqn:Hab;
        [|rewrite (int16_pair_bad a b Hab); reflexivity].
      destruct (int16_tolerated c && int16_tolerated d) eqn:Hcd;
        [|rewrite (int16_pair_bad c d Hcd); raise_later].
      destruct (int16_tolerated e && int16_tolerated f) eqn:Hef;
        [|rewrite (int16_pair_bad e f Hef); raise_later].
      apply andb_true_iff in Hab as [Ha Hb].
      apply andb_true_iff in Hcd as [Hc Hd].
      apply andb_true_iff in Hef as [He Hf].
      rewrite Ha, Hb, Hc, Hd, He, Hf in Hbad. discriminate Hbad.
  - intros Hlen.
    destruct h as [|a [|b [|c [|d [|e [|f h]]]]]]; simpl in Hlen;
      try (exfalso; lia).
    rewrite !hex_to_rgb_unfold. rewrite (lstrip_take "#" 5 _ Hh), Hh.
    reflexivity.
Qed.

Lemma hex_to_rgb_forms_witness :
  ColorLookup.hex_to_rgb "#1e90ff"
  = Ok (hex_pair "1" "e", hex_pair "9" "0", hex_pair "f" "f")
  /\ ColorLookup.hex_to_rgb "#1e90ff0" = ColorLookup.hex_to_rgb "1e90ff"
  /\ ColorLookup.hex_to_rgb "#1e9g" = Raise ValueError.
Proof.
  destruct hex_to_rgb_forms as [_ H].
  split; [|split].
  - destruct (H "#1e90ff") as (_ & H6 & _).
    destruct (H6 eq_refl eq_refl) as (a & b & c & d & e & f & Eh & E).
    inversion Eh; subst. exact E.
  - destruct (H "#1e90ff0") as (_ & _ & _ & _ & _ & Hlong).
    apply Hlong. apply Nat.leb_le. reflexivity.
  - destruct (H "#1e9g") as (_ & _ & Hshort & _).
    apply Hshort. right. reflexivity.
Defined.

(** C10. For components within [0, 255], [hex_to_rgb(rgb_to_hex(r, g, b))]
    is [(r, g, b)]; for a string [s] of six lower-case hexadecimal digits,
    [hex_to_rgb("#" + s)] returns components that [rgb_to_hex] formats back
    to ["#" + s]. *)
Theorem hex_round_trip :
  (forall r g b : Z,
      0 <= r <= 255 -> 0 <= g <= 255 -> 0 <= b <= 255 ->
      ColorLookup.hex_to_rgb (ColorLookup.rgb_to_hex r g b) = Ok (r, g, b))
  /\ (forall s : string,
        String.length s = 6%nat ->
        all_chars is_lower_hex_digit s = true ->
        exists r g b,
          ColorLookup.hex_to_rgb (String "#" s) = Ok (r, g, b)
          /\ ColorLookup.rgb_to_hex r g b = String "#" s).
Proof.
  split.
  - intros r g b Hr Hg Hb.
    destruct (format_02x_byte r Hr) as (r1 & r2 & Er & Hr1 & Hr2 & <-).
    destruct (format_02x_byte g Hg) as (g1 & g2 & Eg & Hg1 & Hg2 & <-).
    destruct (format_02x_byte b Hb) as (b1 & b2 & Eb & Hb1 & Hb2 & <-).
    unfold ColorLookup.rgb_to_hex. rewrite Er, Eg, Eb.
    cbn [String.append]. rewrite <- hex_to_rgb_lstrip.
    cbn [Py.lstrip]. change (Ascii.eqb "#" "#") with true. cbv iota.
    rewrite (hex_digit_not_hash r1) by (apply lower_hex_is_hex, Hr1).
    apply hex_to_rgb_six; apply lower_hex_is_hex; assumption.
  - intros s Hlen Hhex.
    destruct s as [|a [|b [|c [|d [|e [|f [|x s]]]]]]]; try discriminate Hlen.
    unfold all_chars in Hhex. cbn [list_ascii_of_string forallb] in Hhex.
    rewrite !andb_true_iff in Hhex.
    destruct Hhex as (Ha & Hb & Hc & Hd & He & Hf & _).
    exists (hex_pair a b), (hex_pair c d), (hex_pair e f). split.
    + rewrite <- hex_to_rgb_lstrip.
      cbn [Py.lstrip]. change (Ascii.eqb "#" "#") with true. cbv iota.
      rewrite (hex_digit_not_hash a) by (apply lower_hex_is_hex, Ha).
      apply hex_to_rgb_six; apply lower_hex_is_hex; assumption.
    + unfold ColorLookup.rgb_to_hex.
      rewrite !format_02x_pair by assumption. reflexivity.
Qed.

Lemma hex_round_trip_witness :
  ColorLookup.hex_to_rgb (ColorLookup.rgb_to_hex 255 0 170) = Ok (255, 0, 170)
  /\ exists r g b,
      ColorLookup.hex_to_rgb "#1e90ff" = Ok (r, g, b)
      /\ ColorLookup.rgb_to_hex r g b = "#1e90ff".
Proof.
  destruct hex_round_trip as [H1 H2]. split.
  - apply H1; lia.
  - apply (H2 "1e90ff"); reflexivity.
Defined.

(** ** Further properties: the cache *)

Lemma maxsize_pos : (0 < ColorLookup.maxsize)%nat.
Proof. apply Nat.ltb_lt. reflexivity. Qed.

Lemma cache_remove_split (k : key) (v : string) (p1 p2 : ColorLookup.lru) :
  ~ In k (map fst p1) ->
  ColorLookup.cache_remove k (p1 ++ (k, v) :: p2) = p1 ++ p2.
Proof.
  intros H. rewrite cache_remove_app_notin by assumption.
  simpl. rewrite key_eqb_refl. reflexivity.
Qed.

Lemma removelast_firstn_keys (c : ColorLookup.lru) :
  map fst (removelast c) = firstn (Nat.pred (List.length c)) (map fst c).
Proof.
  rewrite removelast_firstn_len, firstn_map. reflexivity.
Qed.

Lemma In_firstn {A : Type} (n : nat) (x : A) (l : list A) :
  In x (firstn n l) -> In x l.
Proof.
  intros H. rewrite <- (firstn_skipn n l). apply in_or_app. left. exact H.
Qed.

Lemma NoDup_firstn {A : Type} (n : nat) (l : list A) :
  NoDup l -> NoDup (firstn n l).
Proof.
  intros H. rewrite <- (firstn_skipn n l) in H.
  apply NoDup_app_remove_r in H. exact H.
Qed.

Lemma cache_hit_wf (k : key) (v : string) (c : ColorLookup.lru) :
  cache_wf c -> ColorLookup.cache_find k c = Some v ->
  cache_wf (ColorLookup.cache_hit k v c).
Proof.
  intros [Hnd Hlen] Hfind. unfold ColorLookup.cache_hit.
  assert (In k (map fst c)) as Hin.
  { apply cache_find_In in Hfind. apply (in_map fst) in Hfind. exact Hfind. }
  destruct (first_occurrence _ _ Hin) as (p1 & v0 & p2 & -> & Hn1).
  rewrite cache_remove_split by assumption.
  rewrite map_app in Hnd. simpl in Hnd.
  rewrite length_app in Hlen. simpl in Hlen.
  split.
  - simpl. rewrite map_app. constructor.
    + apply NoDup_remove_2 in Hnd. exact Hnd.
    + apply NoDup_remove_1 in Hnd. exact Hnd.
  - simpl. rewrite length_app. lia.
Qed.

Lemma cache_miss_wf (k : key) (v : string) (c : ColorLookup.lru) :
  cache_wf c -> ColorLookup.cache_find k c = None ->
  cache_wf (ColorLookup.cache_miss k v c).
Proof.
  intros [Hnd Hlen] Hfind. apply cache_find_None in Hfind.
  unfold ColorLookup.cache_miss.
  destruct (ColorLookup.maxsize <=? List.length c)%nat eqn:Efull.
  - apply Nat.leb_le in Efull. pose proof maxsize_pos as Hpos. split.
    + simpl. rewrite removelast_firstn_keys. constructor.
      * intros H. apply Hfind. eapply In_firstn. exact H.
      * apply NoDup_firstn, Hnd.
    + simpl. rewrite removelast_firstn_len, length_firstn. lia.
  - apply Nat.leb_gt in Efull. split.
    + simpl. constructor; assumption.
    + simpl. lia.
Qed.

Lemma get_color_name_wf (r g b : Z) (s : ColorLookup.t) :
  cache_wf (ColorLookup.cache s) ->
  cache_wf (ColorLookup.cache (snd (ColorLookup.get_color_name r g b s))).
Proof.
  intros Hwf. pose proof (wrapped_cache r g b s) as Hc.
  unfold ColorLookup.get_color_name.
  destruct (ColorLookup.cache_find (r, g, b) (ColorLookup.cache s)) as [v|] eqn:E.
  - cbn [fst snd ColorLookup.cache]. apply cache_hit_wf; assumption.
  - destruct (ColorLookup.get_color_name_wrapped r g b s) as [v s'].
    cbn [fst snd ColorLookup.cache] in *. rewrite Hc.
    apply cache_miss_wf; assumption.
Qed.

Lemma cache_wf_nil : cache_wf [].
Proof. split; [constructor | simpl; lia]. Qed.

Lemma step_cache_wf (c : call) (s : ColorLookup.t) :
  cache_wf (ColorLookup.cache s) -> cache_wf (ColorLookup.cache (step c s)).
Proof.
  intros Hwf. destruct c as [r g b | r g b name | items | r g b th];
    cbn [step].
  - apply get_color_name_wf, Hwf.
  - apply cache_wf_nil.
  - unfold ColorLookup.import_from_json, ColorDatabase.bulk_import_from_json.
    destruct (ColorDatabase.import_items items _) as [t'|e];
      cbn [snd ColorLookup.cache_clear ColorLookup.cache].
    + apply cache_wf_nil.
    + exact Hwf.
  - exact Hwf.
Qed.

Lemma reachable_cache_wf (s : ColorLookup.t) :
  reachable s -> cache_wf (ColorLookup.cache s).
Proof.
  intros (file & cs & _ & ->).
  apply (run_invariant (fun s => cache_wf (ColorLookup.cache s))).
  - intros c s; apply step_cache_wf.
  - apply cache_wf_nil.
Qed.

(** X1. In every reachable state the cache holds at most 2048 entries and no
    two entries under one key. *)
Theorem cache_bounded :
  forall s : ColorLookup.t,
    reachable s ->
    (List.length (ColorLookup.cache s) <= 2048)%nat
    /\ NoDup (map fst (ColorLookup.cache s)).
Proof.
  intros s Hs. destruct (reachable_cache_wf s Hs) as [Hnd Hlen].
  split; [exact Hlen | exact Hnd].
Qed.

Lemma cache_bounded_witness :
  let s := run [AddColor 255 0 0 "Bright Red"; GetColorName 255 0 0;
                GetColorName 1 2 3; GetColorName 255 0 0]
               (ColorLookup.init []) in
  (List.length (ColorLookup.cache s) <= 2048)%nat
  /\ NoDup (map fst (ColorLookup.cache s)).
Proof.
  apply cache_bounded.
  exists [], [AddColor 255 0 0 "Bright Red"; GetColorName 255 0 0;
              GetColorName 1 2 3; GetColorName 255 0 0].
  split; [constructor | reflexivity].
Defined.

(** X2. In every reachable state the cache is transparent:
    [get_color_name] returns what its undecorated body would return now,
    and it leaves the table as it is. *)
Theorem get_color_name_transparent :
  forall (s : ColorLookup.t) (r g b : Z),
    reachable s ->
    fst (ColorLookup.get_color_name r g b s)
    = fst (ColorLookup.get_color_name_wrapped r g b s)
    /\ ColorDatabase.colors
         (ColorLookup.db (snd (ColorLookup.get_color_name r g b s)))
       = ColorDatabase.colors (ColorLookup.db s).
Proof.
  intros s r g b Hs. split.
  - destruct (get_color_name_coherent r g b s (reachable_coherent s Hs))
      as [-> _].
    symmetry. apply wrapped_resolved.
  - apply get_color_name_db.
Qed.

Lemma get_color_name_transparent_witness :
  let s := run [AddColor 255 0 0 "Bright Red"; GetColorName 255 0 0]
               (ColorLookup.init [((1, 2, 3), "Dark")]) in
  fst (ColorLookup.get_color_name 255 0 0 s)
  = fst (ColorLookup.get_color_name_wrapped 255 0 0 s)
  /\ ColorDatabase.colors
       (ColorLookup.db (snd (ColorLookup.get_color_name 255 0 0 s)))
     = ColorDatabase.colors (ColorLookup.db s).
Proof.
  apply get_color_name_transparent.
  exists [((1, 2, 3), "Dark")],
         [AddColor 255 0 0 "Bright Red"; GetColorName 255 0 0].
  split; [repeat constructor; simpl; tauto | reflexivity].
Defined.

Lemma run_coherent (cs : list call) (s : ColorLookup.t) :
  coherent s -> coherent (run cs s).
Proof.
  apply (run_invariant coherent). intros c s'; apply step_coherent.
Qed.

(** X3. Lookups are repeatable: in a reachable state, whatever is looked up
    or scanned in between, [get_color_name] returns for a key what it
    returned before. *)
Theorem get_color_name_repeatable :
  forall (s : ColorLookup.t) (between : list call) (r g b : Z),
    reachable s ->
    forallb read_only between = true ->
    fst (ColorLookup.get_color_name r g b (run between s))
    = fst (ColorLookup.get_color_name r g b s).
Proof.
  intros s between r g b Hs Hro.
  pose proof (reachable_coherent s Hs) as Hco.
  destruct (get_color_name_coherent r g b _ (run_coherent between s Hco))
    as [-> _].
  destruct (get_color_name_coherent r g b s Hco) as [-> _].
  rewrite run_read_only_colors by exact Hro. reflexivity.
Qed.

Lemma get_color_name_repeatable_witness :
  let s := run [AddColor 255 0 0 "Bright Red"] (ColorLookup.init []) in
  fst (ColorLookup.get_color_name 255 0 0
         (run [GetColorName 1 2 3; FindSimilarColor 0 0 0 50;
               GetColorName 1000 0 0] s))
  = fst (ColorLookup.get_color_name 255 0 0 s).
Proof.
  apply get_color_name_repeatable; [|reflexivity].
  exists [], [AddColor 255 0 0 "Bright Red"].
  split; [constructor | reflexivity].
Defined.

(** X4. A record stored with an empty name is stored, but resolves like a
    missing one: [find_color] returns the empty name and [get_color_name]
    returns ["Unknown"]. *)
Theorem empty_name_resolves_unknown :
  forall (s : ColorLookup.t) (r g b : Z),
    0 <= r <= 999 /\ 0 <= g <= 999 /\ 0 <= b <= 999 ->
    let s' := ColorLookup.add_color r g b EmptyString s in
    fst (ColorDatabase.find_color r g b (ColorLookup.db s')) = Some EmptyString
    /\ fst (ColorLookup.get_color_name r g b s') = "Unknown".
Proof.
  intros s r g b Hr s'. apply in_range_spec in Hr.
  assert (Sql.select_name (r, g, b) (ColorDatabase.colors (ColorLookup.db s'))
          = Some EmptyString) as Hsel.
  { rewrite select_name_rows. subst s'. simpl.
    rewrite rows_at_insert_same. reflexivity. }
  split.
  - unfold ColorDatabase.find_color. rewrite Hr. simpl. exact Hsel.
  - assert (coherent s') as Hco by (intros r' g' b' v []).
    destruct (get_color_name_coherent r g b s' Hco) as [-> _].
    unfold resolved. rewrite Hr, Hsel. reflexivity.
Qed.

Lemma empty_name_resolves_unknown_witness :
  let s' := ColorLookup.add_color 10 20 30 EmptyString (ColorLookup.init []) in
  fst (ColorDatabase.find_color 10 20 30 (ColorLookup.db s')) = Some EmptyString
  /\ fst (ColorLookup.get_color_name 10 20 30 s') = "Unknown".
Proof.
  apply (empty_name_resolves_unknown (ColorLookup.init []) 10 20 30). lia.
Defined.

(** X5. A record added under a key with a component out of [0, 999] can not
    be resolved, [get_color_name] answers ["Invalid RGB value"]; on the scans
    that SQLite computes in its integers, the similarity scan around that key
    still returns it, at distance 0. *)
Theorem out_of_range_record :
  forall (s : ColorLookup.t) (r g b threshold : Z) (name : string),
    ~ (0 <= r <= 999 /\ 0 <= g <= 999 /\ 0 <= b <= 999) ->
    0 <= threshold ->
    scan_exact (r, g, b) threshold (ColorDatabase.colors (ColorLookup.db s))
    = true ->
    let s' := ColorLookup.add_color r g b name s in
    fst (ColorLookup.get_color_name r g b s') = "Invalid RGB value"
    /\ In (((r, g, b), name), 0)
          (fst (ColorLookup.find_similar_color r g b threshold s')).
Proof.
  intros s r g b threshold name Hout Hth _ s'.
  assert (in_range r g b = false) as Hr.
  { destruct (in_range r g b) eqn:E; [|reflexivity].
    apply in_range_spec in E. contradiction. }
  split.
  - assert (coherent s') as Hco by (intros r' g' b' v []).
    destruct (get_color_name_coherent r g b s' Hco) as [-> _].
    unfold resolved. rewrite Hr. reflexivity.
  - unfold ColorLookup.find_similar_color.
    cbn [fst ColorDatabase.connect ColorDatabase.colors].
    apply select_similar_In. cbn [fst snd]. split; [|split].
    + subst s'. simpl. unfold Sql.insert_or_replace.
      apply in_or_app. right. left. reflexivity.
    + unfold Sql.diff. rewrite !Z.sub_diag. reflexivity.
    + exact Hth.
Qed.

Lemma out_of_range_record_witness :
  let s' := ColorLookup.add_color 1000 0 (-1) "Beyond" (ColorLookup.init []) in
  fst (ColorLookup.get_color_name 1000 0 (-1) s') = "Invalid RGB value"
  /\ In (((1000, 0, -1), "Beyond"), 0)
        (fst (ColorLookup.find_similar_color 1000 0 (-1) 50 s')).
Proof.
  apply (out_of_range_record (ColorLookup.init []) 1000 0 (-1) 50 "Beyond");
    [lia | lia | reflexivity].
Defined.

(** X6. Adding a colour does not change what any other key resolves to. *)
Theorem add_color_other_keys :
  forall (s : ColorLookup.t) (r g b r' g' b' : Z) (name : string),
    reachable s ->
    (r', g', b') <> (r, g, b) ->
    fst (ColorLookup.get_color_name r' g' b'
           (ColorLookup.add_color r g b name s))
    = fst (ColorLookup.get_color_name r' g' b' s).
Proof.
  intros s r g b r' g' b' name Hs Hne.
  destruct (get_color_name_coherent r' g' b' s (reachable_coherent s Hs))
    as [-> _].
  assert (coherent (ColorLookup.add_color r g b name s)) as Hco
      by (intros r0 g0 b0 v []).
  destruct (get_color_name_coherent r' g' b' _ Hco) as [-> _].
  unfold resolved. rewrite !select_name_rows. simpl.
  rewrite rows_at_insert_other by exact Hne. reflexivity.
Qed.

Lemma add_color_other_keys_witness :
  let s := run [AddColor 255 0 0 "Bright Red"; GetColorName 255 0 0]
               (ColorLookup.init []) in
  fst (ColorLookup.get_color_name 255 0 0
         (ColorLookup.add_color 0 255 0 "Pure Green" s))
  = fst (ColorLookup.get_color_name 255 0 0 s).
Proof.
  apply add_color_other_keys.
  - exists [], [AddColor 255 0 0 "Bright Red"; GetColorName 255 0 0].
    split; [constructor | reflexivity].
  - discriminate.
Defined.

(** ** Further properties: the order of eviction *)

Lemma filter_other_notin (k : key) (l : list key) :
  ~ In k l -> filter (fun x => negb (key_eqb x k)) l = l.
Proof.
  induction l as [|a l IH]; simpl; intros H; [reflexivity|].
  assert (key_eqb a k = false) as -> by (apply key_eqb_neq; tauto).
  simpl. f_equal. apply IH. tauto.
Qed.

Lemma filter_other_In (k x : key) (l : list key) :
  In x (filter (fun y => negb (key_eqb y k)) l) <-> In x l /\ x <> k.
Proof.
  rewrite filter_In, negb_true_iff, key_eqb_neq. reflexivity.
Qed.

Lemma cache_remove_keys (k : key) (c : ColorLookup.lru) :
  NoDup (map fst c) ->
  map fst (ColorLookup.cache_remove k c)
  = filter (fun x => negb (key_eqb x k)) (map fst c).
Proof.
  induction c as [|[k' v'] c IH]; simpl; intros Hnd; [reflexivity|].
  inversion Hnd as [|? ? Hnotin Hnd']; subst.
  destruct (key_eqb k' k) eqn:E; simpl.
  - apply key_eqb_eq in E; subst k'. symmetry.
    apply filter_other_notin, Hnotin.
  - f_equal. apply IH, Hnd'.
Qed.

Lemma touch_NoDup (k : key) (l : list key) : NoDup l -> NoDup (touch k l).
Proof.
  intros H. unfold touch. constructor.
  - rewrite filter_other_In. tauto.
  - apply NoDup_filter, H.
Qed.

Lemma mru_from_snoc (l ks : list key) (k : key) :
  mru_from l (ks ++ [k]) = touch k (mru_from l ks).
Proof. unfold mru_from. rewrite fold_left_app. reflexivity. Qed.

Lemma mru_from_NoDup (ks l : list key) : NoDup l -> NoDup (mru_from l ks).
Proof.
  induction ks as [|k ks IH] using rev_ind; intros H; [exact H|].
  rewrite mru_from_snoc. apply touch_NoDup, IH, H.
Qed.

Lemma mru_from_In (x : key) (ks l : list key) :
  In x (mru_from l ks) <-> In x ks \/ In x l.
Proof.
  induction ks as [|k ks IH] using rev_ind; [simpl; tauto|].
  rewrite mru_from_snoc. unfold touch. simpl.
  rewrite filter_other_In, IH, in_app_iff. simpl.
  destruct (key_eq_dec x k) as [E | E]; [subst; tauto|].
  split; [intros [H | H]; [congruence | tauto] | tauto].
Qed.

(** The keys looked up come first, whatever the order started from. *)
Lemma mru_from_prefix (ks l : list key) :
  exists rest, mru_from l ks = mru_from [] ks ++ rest.
Proof.
  induction ks as [|k ks IH] using rev_ind; [exists l; reflexivity|].
  destruct IH as [rest E]. rewrite !mru_from_snoc, E. unfold touch.
  rewrite filter_app. eexists. reflexivity.
Qed.

Lemma firstn_filter_firstn (k : key) (l : list key) :
  NoDup l ->
  forall n,
    firstn n (filter (fun x => negb (key_eqb x k)) (firstn (S n) l))
    = firstn n (filter (fun x => negb (key_eqb x k)) l).
Proof.
  induction l as [|a l IH]; intros Hnd n; [destruct n; reflexivity|].
  inversion Hnd as [|? ? Hnotin Hnd']; subst.
  cbn [firstn filter]. destruct (key_eqb a k) eqn:E; cbn [negb].
  - apply key_eqb_eq in E; subst a.
    rewrite !filter_other_notin;
      [rewrite firstn_firstn, Nat.min_id; reflexivity | exact Hnotin |].
    intros H. apply Hnotin. eapply In_firstn. exact H.
  - destruct n as [|n]; [reflexivity|]. cbn [firstn]. f_equal.
    apply IH, Hnd'.
Qed.

Lemma firstn_touch_firstn (m : nat) (k : key) (l : list key) :
  NoDup l -> (0 < m)%nat ->
  firstn m (touch k (firstn m l)) = firstn m (touch k l).
Proof.
  intros Hnd Hm. destruct m as [|n]; [lia|].
  unfold touch. cbn [firstn]. f_equal. apply firstn_filter_firstn, Hnd.
Qed.

Lemma get_color_name_order (r g b : Z) (s : ColorLookup.t) :
  cache_wf (ColorLookup.cache s) ->
  map fst (ColorLookup.cache (snd (ColorLookup.get_color_name r g b s)))
  = firstn ColorLookup.maxsize (touch (r, g, b) (map fst (ColorLookup.cache s))).
Proof.
  intros Hwf. pose proof (get_color_name_wf r g b s Hwf) as [_ Hlen'].
  pose proof (wrapped_cache r g b s) as Hc.
  destruct Hwf as [Hnd Hlen]. revert Hlen'.
  unfold ColorLookup.get_color_name.
  destruct (ColorLookup.cache_find (r, g, b) (ColorLookup.cache s)) as [v|] eqn:E.
  - cbn [fst snd ColorLookup.cache]. intros Hlen'.
    unfold ColorLookup.cache_hit in *. cbn [map fst].
    rewrite cache_remove_keys by exact Hnd.
    fold (touch (r, g, b) (map fst (ColorLookup.cache s))).
    symmetry. apply firstn_all2.
    unfold touch. cbn [List.length] in *.
    rewrite <- cache_remove_keys, length_map by exact Hnd. exact Hlen'.
  - destruct (ColorLookup.get_color_name_wrapped r g b s) as [v s'].
    cbn [fst snd ColorLookup.cache] in *. rewrite Hc. intros Hlen'.
    apply cache_find_None in E. unfold touch.
    rewrite filter_other_notin by exact E.
    unfold ColorLookup.cache_miss in *.
    destruct (ColorLookup.maxsize <=? List.length (ColorLookup.cache s))%nat
      eqn:Efull.
    + apply Nat.leb_le in Efull. cbn [map fst].
      rewrite removelast_firstn_keys.
      pose proof maxsize_pos as Hpos.
      assert (List.length (ColorLookup.cache s) = ColorLookup.maxsize) as El
          by lia.
      rewrite El.
      destruct ColorLookup.maxsize as [|n]; [lia|]. reflexivity.
    + cbn [map fst]. symmetry. apply firstn_all2.
      cbn [List.length map fst] in *. rewrite length_map. exact Hlen'.
Qed.

Lemma lookups_snoc (ks : list key) (r g b : Z) :
  lookups (ks ++ [(r, g, b)]) = lookups ks ++ [GetColorName r g b].
Proof. unfold lookups. rewrite map_app. reflexivity. Qed.

Lemma run_cache_wf (cs : list call) (s : ColorLookup.t) :
  cache_wf (ColorLookup.cache s) -> cache_wf (ColorLookup.cache (run cs s)).
Proof.
  apply (run_invariant (fun s => cache_wf (ColorLookup.cache s))).
  intros c s'; apply step_cache_wf.
Qed.

Lemma lookups_order (ks : list key) (s : ColorLookup.t) :
  cache_wf (ColorLookup.cache s) ->
  map fst (ColorLookup.cache (run (lookups ks) s))
  = firstn ColorLookup.maxsize (mru_from (map fst (ColorLookup.cache s)) ks).
Proof.
  intros Hwf. induction ks as [|[[r g] b] ks IH] using rev_ind.
  - cbn [lookups map run fold_left mru_from]. symmetry.
    apply firstn_all2. rewrite length_map. apply Hwf.
  - rewrite lookups_snoc, run_app, mru_from_snoc. cbn [run fold_left step].
    rewrite get_color_name_order by (apply run_cache_wf, Hwf).
    rewrite IH. apply firstn_touch_firstn; [|apply maxsize_pos].
    apply mru_from_NoDup, Hwf.
Qed.

(** X7. The cache is a least-recently-used list.  After a sequence of
    lookups from a reachable state, the keys of the cache are, in order, the
    first 2048 keys in order of last use, the most recent first. *)
Theorem cache_lru_order :
  forall (s : ColorLookup.t) (ks : list key),
    reachable s ->
    map fst (ColorLookup.cache (run (lookups ks) s))
    = firstn 2048 (mru_from (map fst (ColorLookup.cache s)) ks).
Proof.
  intros s ks Hs. apply (lookups_order ks s), reachable_cache_wf, Hs.
Qed.

Lemma cache_lru_order_witness :
  let s := run [AddColor 255 0 0 "Bright Red"; GetColorName 7 7 7]
               (ColorLookup.init []) in
  map fst (ColorLookup.cache
             (run (lookups [(1, 2, 3); (255, 0, 0); (1, 2, 3)]) s))
  = firstn 2048 (mru_from (map fst (ColorLookup.cache s))
                          [(1, 2, 3); (255, 0, 0); (1, 2, 3)]).
Proof.
  apply cache_lru_order.
  exists [], [AddColor 255 0 0 "Bright Red"; GetColorName 7 7 7].
  split; [constructor | reflexivity].
Defined.

Lemma get_color_name_miss_connects (r g b : Z) (s : ColorLookup.t) :
  ColorLookup.cache_find (r, g, b) (ColorLookup.cache s) = None ->
  in_range r g b = true ->
  ColorDatabase.connections
    (ColorLookup.db (snd (ColorLookup.get_color_name r g b s)))
  = S (ColorDatabase.connections (ColorLookup.db s)).
Proof.
  intros Hfind Hr.
  unfold ColorLookup.get_color_name, ColorLookup.get_color_name_wrapped,
    ColorDatabase.find_color.
  rewrite Hfind, Hr. reflexivity.
Qed.

(** X8. The bound of the cache is tight.  Once 2048 or more distinct other
    keys have been looked up after a key in range, its entry is gone: the
    next lookup of that key opens a connection to the database again. *)
Theorem cache_eviction :
  forall (s : ColorLookup.t) (ks : list key) (r g b : Z),
    reachable s ->
    0 <= r <= 999 /\ 0 <= g <= 999 /\ 0 <= b <= 999 ->
    ~ In (r, g, b) ks ->
    (2048 <= List.length (nodup key_eq_dec ks))%nat ->
    let s1 := snd (ColorLookup.get_color_name r g b s) in
    let s2 := run (lookups ks) s1 in
    ColorLookup.cache_find (r, g, b) (ColorLookup.cache s2) = None
    /\ ColorDatabase.connections
         (ColorLookup.db (snd (ColorLookup.get_color_name r g b s2)))
       = S (ColorDatabase.connections (ColorLookup.db s2)).
Proof.
  intros s ks r g b Hs Hr Hnotin Hmany s1 s2.
  apply in_range_spec in Hr.
  assert (cache_wf (ColorLookup.cache s1)) as Hwf1.
  { apply get_color_name_wf, reachable_cache_wf, Hs. }
  assert (ColorLookup.cache_find (r, g, b) (ColorLookup.cache s2) = None)
    as Hgone.
  { apply cache_find_None. subst s2. rewrite (lookups_order ks s1 Hwf1).
    destruct (mru_from_prefix ks (map fst (ColorLookup.cache s1)))
      as [rest ->].
    assert (ColorLookup.maxsize <= List.length (mru_from [] ks))%nat as Hlen.
    { eapply Nat.le_trans; [exact Hmany|].
      apply NoDup_incl_length; [apply NoDup_nodup|].
      intros x Hx. apply nodup_In in Hx. apply mru_from_In. left. exact Hx. }
    rewrite firstn_app.
    replace (ColorLookup.maxsize - List.length (mru_from [] ks))%nat
      with 0%nat by lia.
    rewrite firstn_O, app_nil_r. intros H. apply In_firstn in H.
    apply mru_from_In in H as [H | []]. contradiction. }
  split; [exact Hgone|].
  apply get_color_name_miss_connects; assumption.
Qed.

Lemma forallb_other_notin (k : key) (l : list key) :
  forallb (fun x => negb (key_eqb x k)) l = true -> ~ In k l.
Proof.
  intros H Hin. rewrite forallb_forall in H. specialize (H k Hin).
  rewrite key_eqb_refl in H. discriminate.
Qed.

Lemma cache_eviction_witness :
  let ks := map (fun n => (Z.of_nat n, 0, 0)) (seq 1 2048) in
  let s1 := snd (ColorLookup.get_color_name 0 0 0 (ColorLookup.init [])) in
  let s2 := run (lookups ks) s1 in
  ColorLookup.cache_find (0, 0, 0) (ColorLookup.cache s2) = None
  /\ ColorDatabase.connections
       (ColorLookup.db (snd (ColorLookup.get_color_name 0 0 0 s2)))
     = S (ColorDatabase.connections (ColorLookup.db s2)).
Proof.
  apply (cache_eviction (ColorLookup.init [])
           (map (fun n => (Z.of_nat n, 0, 0)) (seq 1 2048)) 0 0 0).
  - exists [], []. split; [constructor | reflexivity].
  - lia.
  - apply forallb_other_notin. vm_compute. reflexivity.
  - apply Nat.leb_le. vm_compute. reflexivity.
Defined.

(** ** Further properties: the store *)

(** X9. At the level of the database, a colour added under a key within
    [0, 999] is found under that key, and the lookup of any other key finds
    what it found before. *)
Theorem find_color_after_add_color :
  forall (d : ColorDatabase.t) (r g b r' g' b' : Z) (name : string),
    (0 <= r <= 999 /\ 0 <= g <= 999 /\ 0 <= b <= 999 ->
     fst (ColorDatabase.find_color r g b (ColorDatabase.add_color r g b name d))
     = Some name)
    /\ ((r', g', b') <> (r, g, b) ->
        fst (ColorDatabase.find_color r' g' b'
               (ColorDatabase.add_color r g b name d))
        = fst (ColorDatabase.find_color r' g' b' d)).
Proof.
  intros d r g b r' g' b' name. unfold ColorDatabase.find_color. split.
  - intros Hr. apply in_range_spec in Hr. rewrite Hr.
    cbn [negb fst ColorDatabase.connect ColorDatabase.add_color
         ColorDatabase.colors].
    rewrite select_name_rows, rows_at_insert_same. reflexivity.
  - intros Hne. destruct (in_range r' g' b'); [|reflexivity].
    cbn [negb fst ColorDatabase.connect ColorDatabase.add_color
         ColorDatabase.colors].
    rewrite !select_name_rows, rows_at_insert_other by exact Hne.
    reflexivity.
Qed.

Lemma find_color_after_add_color_witness :
  let d := ColorDatabase.init [((0, 255, 0), "Pure Green")] in
  fst (ColorDatabase.find_color 255 0 0
         (ColorDatabase.add_color 255 0 0 "Bright Red" d))
  = Some "Bright Red"
  /\ fst (ColorDatabase.find_color 0 255 0
            (ColorDatabase.add_color 255 0 0 "Bright Red" d))
     = fst (ColorDatabase.find_color 0 255 0 d).
Proof.
  intros d.
  destruct (find_color_after_add_color d 255 0 0 0 255 0 "Bright Red")
    as [Hsame Hother].
  split; [apply Hsame; lia | apply Hother; discriminate].
Defined.

Lemma rows_at_length (k : key) (t : table) :
  (List.length (filter (fun rw => negb (key_eqb (fst rw) k)) t)
   + List.length (rows_at k t) = List.length t)%nat.
Proof.
  unfold rows_at. induction t as [|rw t IH]; simpl; [reflexivity|].
  destruct (key_eqb (fst rw) k); simpl; lia.
Qed.

(** X10. Under the primary key, [add_color] on a key that SQLite stores
    replaces or appends: the table keeps its number of rows when a row is
    stored under the key, and grows by one row when none is. *)
Theorem add_color_row_count :
  forall (d : ColorDatabase.t) (r g b : Z) (name : string),
    pk_unique (ColorDatabase.colors d) ->
    sqlite_key (r, g, b) = true ->
    List.length (ColorDatabase.colors (ColorDatabase.add_color r g b name d))
    = if existsb (fun rw => key_eqb (fst rw) (r, g, b)) (ColorDatabase.colors d)
      then List.length (ColorDatabase.colors d)
      else S (List.length (ColorDatabase.colors d)).
Proof.
  intros d r g b name Hpk _.
  cbn [ColorDatabase.add_color ColorDatabase.connect ColorDatabase.colors].
  unfold Sql.insert_or_replace. rewrite length_app. cbn [List.length].
  pose proof (rows_at_length (r, g, b) (ColorDatabase.colors d)) as Hlen.
  match goal with
  | |- context [existsb ?f ?l] => destruct (existsb f l) eqn:E
  end.
  - apply existsb_exists in E as [[k n] [Hin Hk]].
    apply key_eqb_eq in Hk. simpl in Hk. subst k.
    rewrite (rows_at_unique _ _ _ Hpk Hin) in Hlen. simpl in Hlen. lia.
  - assert (rows_at (r, g, b) (ColorDatabase.colors d) = []) as Hnone.
    { apply rows_at_nil. intros n Hin.
      assert (existsb (fun rw => key_eqb (fst rw) (r, g, b))
                      (ColorDatabase.colors d) = true) as E'.
      { apply existsb_exists. exists ((r, g, b), n).
        split; [exact Hin | apply key_eqb_refl]. }
      congruence. }
    rewrite Hnone in Hlen. simpl in Hlen. lia.
Qed.

Lemma add_color_row_count_witness :
  let d := ColorDatabase.init [((255, 0, 0), "Red"); ((0, 255, 0), "Green")] in
  List.length (ColorDatabase.colors
                 (ColorDatabase.add_color 255 0 0 "Bright Red" d))
  = 2%nat.
Proof.
  intros d.
  apply (add_color_row_count d 255 0 0 "Bright Red").
  - repeat constructor; simpl; intuition discriminate.
  - reflexivity.
Defined.

(** ** Further properties: bulk import *)

Lemma import_items_last (k : key) (items : list (string * string)) :
  forall t t',
    ColorDatabase.import_items items t = Ok t' ->
    rows_at k t' = match last_name k items with
                   | Some n => [(k, n)]
                   | None => rows_at k t
                   end.
Proof.
  induction items as [|[rgb_str name] items IH]; intros t t' H.
  - simpl in *. inversion H; reflexivity.
  - cbn [ColorDatabase.import_items last_name fst snd] in *.
    destruct (ColorDatabase.unpack_rgb rgb_str) as [k0|e]; cbn [bind] in H;
      [|discriminate].
    rewrite (IH _ _ H). destruct (last_name k items); [reflexivity|].
    destruct (key_eqb k0 k) eqn:E.
    + apply key_eqb_eq in E; subst k0. apply rows_at_insert_same.
    + apply key_eqb_neq in E. apply rows_at_insert_other. congruence.
Qed.

(** X11. In a bulk import the last item wins.  After an import that returns,
    the table holds under a key exactly one row, with the name of the last
    item whose key reads as that key; a key that no item reads as keeps its
    rows. *)
Theorem import_last_wins :
  forall (items : list (string * string)) (s : ColorLookup.t) (r g b : Z),
    fst (ColorLookup.import_from_json items s) = Ok tt ->
    rows_at (r, g, b)
      (ColorDatabase.colors
         (ColorLookup.db (snd (ColorLookup.import_from_json items s))))
    = match last_name (r, g, b) items with
      | Some n => [((r, g, b), n)]
      | None => rows_at (r, g, b) (ColorDatabase.colors (ColorLookup.db s))
      end.
Proof.
  intros items s r g b.
  unfold ColorLookup.import_from_json, ColorDatabase.bulk_import_from_json.
  cbn [ColorDatabase.connect ColorDatabase.colors].
  destruct (ColorDatabase.import_items items _) as [t'|e] eqn:E;
    cbn [fst snd ColorLookup.cache_clear ColorLookup.db ColorDatabase.colors];
    [|discriminate].
  intros _. apply import_items_last, E.
Qed.

Lemma import_last_wins_witness :
  let items := [("1,2,3", "First"); ("0,0,255", "Deep Blue");
                (" 1, +2 ,0_3", "Second")] in
  rows_at (1, 2, 3)
    (ColorDatabase.colors
       (ColorLookup.db (snd (ColorLookup.import_from_json items
                               (ColorLookup.init [((1, 2, 3), "Old")])))))
  = [((1, 2, 3), "Second")].
Proof.
  intros items.
  apply (import_last_wins items (ColorLookup.init [((1, 2, 3), "Old")]) 1 2 3).
  reflexivity.
Defined.

Lemma run_adds_colors (rows : list row) :
  forall s,
    ColorDatabase.colors (ColorLookup.db (run (map add_call rows) s))
    = upsert_all rows (ColorDatabase.colors (ColorLookup.db s)).
Proof.
  induction rows as [|[[[r g] b] name] rows IH]; intros s; [reflexivity|].
  cbn [map add_call]. rewrite run_cons, IH. reflexivity.
Qed.

(** X12. A bulk import that returns leaves the table that the [add_color]
    calls of its items, in order, would leave, and an empty cache. *)
Theorem import_as_add_colors :
  forall (items : list (string * string)) (s : ColorLookup.t),
    fst (ColorLookup.import_from_json items s) = Ok tt ->
    ColorLookup.cache (snd (ColorLookup.import_from_json items s)) = []
    /\ exists rows : list row,
        Forall2 (fun it rw => ColorDatabase.unpack_rgb (fst it) = Ok (fst rw)
                              /\ snd it = snd rw) items rows
        /\ ColorDatabase.colors
             (ColorLookup.db (snd (ColorLookup.import_from_json items s)))
           = ColorDatabase.colors
               (ColorLookup.db (run (map add_call rows) s)).
Proof.
  intros items s.
  unfold ColorLookup.import_from_json, ColorDatabase.bulk_import_from_json.
  cbn [ColorDatabase.connect ColorDatabase.colors].
  destruct (ColorDatabase.import_items items _) as [t'|e] eqn:E;
    cbn [fst snd ColorLookup.cache_clear ColorLookup.db ColorDatabase.colors
         ColorLookup.cache];
    [|discriminate].
  intros _. split; [reflexivity|].
  destruct (import_items_applied _ _ _ E) as (rows & Hrows & ->).
  exists rows. split; [exact Hrows|]. symmetry. apply run_adds_colors.
Qed.

Lemma import_as_add_colors_witness :
  let items := [("255,0,0", "Bright Red"); ("0,255,0", "Pure Green")] in
  let s := ColorLookup.init [((255, 0, 0), "Red")] in
  ColorLookup.cache (snd (ColorLookup.import_from_json items s)) = []
  /\ exists rows : list row,
      Forall2 (fun it rw => ColorDatabase.unpack_rgb (fst it) = Ok (fst rw)
                            /\ snd it = snd rw) items rows
      /\ ColorDatabase.colors
           (ColorLookup.db (snd (ColorLookup.import_from_json items s)))
         = ColorDatabase.colors (ColorLookup.db (run (map add_call rows) s)).
Proof.
  intros items s. apply (import_as_add_colors items s). reflexivity.
Defined.

(** ** Further properties: the similarity scan *)

Lemma diff_nonneg (k c : key) : 0 <= Sql.diff k c.
Proof.
  destruct k as [[r g] b], c as [[cr cg] cb]. unfold Sql.diff. lia.
Qed.

Lemma diff_same (k : key) : Sql.diff k k = 0.
Proof.
  destruct k as [[r g] b]. unfold Sql.diff. rewrite !Z.sub_diag. reflexivity.
Qed.

(** X13. A negative threshold finds nothing: on the scans that SQLite
    computes in its integers, the scan returns the empty list. *)
Theorem find_similar_color_negative_threshold :
  forall (s : ColorLookup.t) (r g b threshold : Z),
    threshold < 0 ->
    scan_exact (r, g, b) threshold (ColorDatabase.colors (ColorLookup.db s))
    = true ->
    fst (ColorLookup.find_similar_color r g b threshold s) = [].
Proof.
  intros s r g b threshold Hneg _.
  unfold ColorLookup.find_similar_color.
  cbn [fst ColorDatabase.connect ColorDatabase.colors].
  destruct (Sql.select_similar _ _ _) as [|x l] eqn:E; [reflexivity|].
  assert (In x (Sql.select_similar (r, g, b) threshold
                  (ColorDatabase.colors (ColorLookup.db s)))) as Hin
      by (rewrite E; left; reflexivity).
  apply select_similar_In in Hin as (_ & Hd & Hle).
  pose proof (diff_nonneg (fst (fst x)) (r, g, b)). lia.
Qed.

Lemma find_similar_color_negative_threshold_witness :
  fst (ColorLookup.find_similar_color 255 0 0 (-1)
         (ColorLookup.add_color 255 0 0 "Bright Red" (ColorLookup.init [])))
  = [].
Proof.
  apply find_similar_color_negative_threshold; [lia | reflexivity].
Defined.

(** X14. The exact match comes first.  In a reachable state, on the scans
    that SQLite computes in its integers, when a row is stored under the
    queried key and the threshold is not negative, the first row returned is
    that row, with distance 0. *)
Theorem find_similar_color_exact_first :
  forall (s : ColorLookup.t) (r g b threshold : Z) (name : string),
    reachable s ->
    In ((r, g, b), name) (ColorDatabase.colors (ColorLookup.db s)) ->
    0 <= threshold ->
    scan_exact (r, g, b) threshold (ColorDatabase.colors (ColorLookup.db s))
    = true ->
    hd_error (fst (ColorLookup.find_similar_color r g b threshold s))
    = Some (((r, g, b), name), 0).
Proof.
  intros s r g b threshold name Hs Hin Hth _.
  pose proof (reachable_pk_unique s Hs) as Hpk.
  unfold ColorLookup.find_similar_color.
  cbn [fst ColorDatabase.connect ColorDatabase.colors].
  set (t := ColorDatabase.colors (ColorLookup.db s)) in *.
  assert (In (((r, g, b), name), 0) (Sql.select_similar (r, g, b) threshold t))
    as Hfound.
  { apply select_similar_In. cbn [fst snd].
    split; [exact Hin | split; [symmetry; apply diff_same | exact Hth]]. }
  assert (StronglySorted (fun x y : Sql.scored => snd x <= snd y)
                         (Sql.select_similar (r, g, b) threshold t))
    as Hsorted by apply order_by_diff_sorted.
  destruct (Sql.select_similar (r, g, b) threshold t) as [|y l] eqn:E;
    [destruct Hfound|].
  assert (In y (Sql.select_similar (r, g, b) threshold t)) as Hy
      by (rewrite E; left; reflexivity).
  apply select_similar_In in Hy as (Hyin & Hyd & _).
  assert (snd y <= 0) as Hy0.
  { destruct Hfound as [Ey | Hl]; [rewrite Ey; cbn [snd]; lia|].
    apply StronglySorted_inv in Hsorted as [_ Hall].
    rewrite Forall_forall in Hall.
    apply (Hall (((r, g, b), name), 0) Hl). }
  assert (fst (fst y) = (r, g, b)) as Hk by (apply diff_zero; lia).
  destruct y as [[k n] d]. cbn [fst snd] in *. subst k.
  pose proof (rows_at_unique _ _ _ Hpk Hin) as E1.
  pose proof (rows_at_unique _ _ _ Hpk Hyin) as E2.
  rewrite E1 in E2. inversion E2; subst n.
  pose proof (diff_same (r, g, b)) as Hz.
  cbn [hd_error]. repeat f_equal. lia.
Qed.

Lemma find_similar_color_exact_first_witness :
  let s := run [AddColor 250 0 0 "Red"; AddColor 255 0 0 "Bright Red";
                AddColor 0 0 255 "Deep Blue"] (ColorLookup.init []) in
  hd_error (fst (ColorLookup.find_similar_color 255 0 0 50 s))
  = Some (((255, 0, 0), "Bright Red"), 0).
Proof.
  intros s. apply (find_similar_color_exact_first s 255 0 0 50 "Bright Red").
  - exists [], [AddColor 250 0 0 "Red"; AddColor 255 0 0 "Bright Red";
                AddColor 0 0 255 "Deep Blue"].
    split; [constructor | reflexivity].
  - right. left. reflexivity.
  - lia.
  - reflexivity.
Defined.

(** X15. Widening the threshold only adds rows: on the scans that SQLite
    computes in its integers, every row returned for a threshold is returned,
    with the same distance, for a larger one. *)
Theorem find_similar_color_monotone :
  forall (s : ColorLookup.t) (r g b t1 t2 : Z),
    t1 <= t2 ->
    scan_exact (r, g, b) t1 (ColorDatabase.colors (ColorLookup.db s)) = true ->
    scan_exact (r, g, b) t2 (ColorDatabase.colors (ColorLookup.db s)) = true ->
    incl (fst (ColorLookup.find_similar_color r g b t1 s))
         (fst (ColorLookup.find_similar_color r g b t2 s)).
Proof.
  intros s r g b t1 t2 Hle _ _ x.
  unfold ColorLookup.find_similar_color.
  cbn [fst ColorDatabase.connect ColorDatabase.colors].
  rewrite !select_similar_In. intros (Hin & Hd & Hx).
  split; [exact Hin | split; [exact Hd | lia]].
Qed.

Lemma find_similar_color_monotone_witness :
  let s := run [AddColor 250 0 0 "Red"; AddColor 0 0 255 "Deep Blue"]
               (ColorLookup.init []) in
  incl (fst (ColorLookup.find_similar_color 255 0 0 10 s))
       (fst (ColorLookup.find_similar_color 255 0 0 600 s)).
Proof.
  intros s. apply find_similar_color_monotone; [lia | reflexivity | reflexivity].
Defined.

(** ** Further properties: hexadecimal conversions *)

Lemma all_short_checked :
  forallb (fun a => forallb (short_check a) all_ascii) all_ascii = true.
Proof. vm_compute. reflexivity. Qed.

Lemma all_wide_checked :
  forallb wide_check (map Z.of_nat (seq 256 744)) = true.
Proof. vm_compute. reflexivity. Qed.

Lemma short_checked (a b : ascii) : short_check a b = true.
Proof.
  pose proof all_short_checked as H.
  rewrite forallb_forall in H. specialize (H a (all_ascii_In a)).
  rewrite forallb_forall in H. exact (H b (all_ascii_In b)).
Qed.

Lemma wide_checked (z : Z) : 256 <= z <= 999 -> wide_check z = true.
Proof.
  intros Hz. pose proof all_wide_checked as H.
  rewrite forallb_forall in H. apply H.
  rewrite <- (Z2Nat.id z) by lia. apply in_map, in_seq. lia.
Qed.

Lemma in_int16_range_spec (m : result Z) (v : Z) :
  in_int16_range m = true -> m = Ok v -> -15 <= v <= 255.
Proof.
  intros H ->. simpl in H. apply andb_true_iff in H as [H1 H2].
  apply Z.leb_le in H1, H2. lia.
Qed.

Lemma int16_short_range (s : string) (v : Z) :
  (String.length s <= 2)%nat -> Py.int s 16 = Ok v -> -15 <= v <= 255.
Proof.
  intros Hlen. destruct s as [|a [|b [|c s]]].
  - rewrite int16_empty. discriminate.
  - pose proof (short_checked a a) as H. unfold short_check in H.
    apply andb_true_iff in H as [H _]. apply andb_true_iff in H as [_ H].
    apply in_int16_range_spec, H.
  - pose proof (short_checked a b) as H. unfold short_check in H.
    apply andb_true_iff in H as [H _]. apply andb_true_iff in H as [H _].
    apply in_int16_range_spec, H.
  - simpl in Hlen. lia.
Qed.

Lemma take_length (n : nat) (s : string) :
  (String.length (Py.take n s) <= n)%nat.
Proof.
  revert s. induction n as [|n IH]; intros [|c s]; simpl; try lia.
  specialize (IH s). lia.
Qed.

(** X16. Whenever [hex_to_rgb] returns, each component lies between -15 and
    255: a slice of two characters is at most ["ff"] and at least ["-f"]. *)
Theorem hex_to_rgb_component_range :
  forall (s : string) (r g b : Z),
    ColorLookup.hex_to_rgb s = Ok (r, g, b) ->
    -15 <= r <= 255 /\ -15 <= g <= 255 /\ -15 <= b <= 255.
Proof.
  intros s r g b. rewrite hex_to_rgb_unfold. cbv zeta.
  set (h := if Nat.eqb _ 3 then _ else _).
  pose proof (int16_short_range (Py.slice h 0 2)) as H1.
  pose proof (int16_short_range (Py.slice h 2 4)) as H2.
  pose proof (int16_short_range (Py.slice h 4 6)) as H3.
  destruct (Py.int (Py.slice h 0 2) 16) as [r'|e]; [|discriminate].
  destruct (Py.int (Py.slice h 2 4) 16) as [g'|e]; [|discriminate].
  destruct (Py.int (Py.slice h 4 6) 16) as [b'|e]; [|discriminate].
  cbn [bind]. intros E. inversion E; subst.
  repeat split;
    first [ apply (H1 r) | apply (H2 g) | apply (H3 b) ];
    first [ apply take_length | reflexivity ].
Qed.

Lemma hex_to_rgb_component_range_witness :
  (-15 <= -15 <= 255 /\ -15 <= 255 <= 255 /\ -15 <= 10 <= 255).
Proof.
  apply (hex_to_rgb_component_range "#-fFF+a" (-15) 255 10). reflexivity.
Defined.

Lemma format_02x_any_case (a b : ascii) :
  is_hex_digit a = true -> is_hex_digit b = true ->
  Py.format_02x (hex_pair a b)
  = String (lower_char a) (String (lower_char b) EmptyString).
Proof.
  intros Ha Hb. pose proof (short_checked a b) as H. unfold short_check in H.
  rewrite Ha, Hb in H. apply andb_true_iff in H as [_ H]. simpl in H.
  apply String.eqb_eq, H.
Qed.

(** X17. Converting six hexadecimal digits of any case to a colour and back
    gives the same digits in lower case. *)
Theorem hex_round_trip_lower_case :
  forall s : string,
    String.length s = 6%nat ->
    all_chars is_hex_digit s = true ->
    exists r g b,
      ColorLookup.hex_to_rgb (String "#" s) = Ok (r, g, b)
      /\ ColorLookup.rgb_to_hex r g b = String "#" (lower_string s).
Proof.
  intros s Hlen Hhex.
  destruct s as [|a [|b [|c [|d [|e [|f [|x s]]]]]]]; try discriminate Hlen.
  unfold all_chars in Hhex. cbn [list_ascii_of_string forallb] in Hhex.
  rewrite !andb_true_iff in Hhex.
  destruct Hhex as (Ha & Hb & Hc & Hd & He & Hf & _).
  exists (hex_pair a b), (hex_pair c d), (hex_pair e f). split.
  - rewrite <- hex_to_rgb_lstrip.
    cbn [Py.lstrip]. change (Ascii.eqb "#" "#") with true. cbv iota.
    rewrite (hex_digit_not_hash a Ha).
    apply hex_to_rgb_six; assumption.
  - unfold ColorLookup.rgb_to_hex.
    rewrite !format_02x_any_case by assumption. reflexivity.
Qed.

Lemma hex_round_trip_lower_case_witness :
  exists r g b,
    ColorLookup.hex_to_rgb "#1E90fF" = Ok (r, g, b)
    /\ ColorLookup.rgb_to_hex r g b = "#1e90ff".
Proof.
  apply (hex_round_trip_lower_case "1E90fF"); reflexivity.
Defined.

Lemma format_02x_key (z : Z) :
  0 <= z <= 999 ->
  (z <= 255
   /\ exists a b,
       Py.format_02x z = String a (String b EmptyString)
       /\ is_hex_digit a = true /\ is_hex_digit b = true
       /\ hex_pair a b = z)
  \/ (255 < z
      /\ exists a b c,
          Py.format_02x z = String a (String b (String c EmptyString))
          /\ is_hex_digit a = true /\ is_hex_digit b = true
          /\ is_hex_digit c = true
          /\ hex_pair a b <= 255).
Proof.
  intros Hz. destruct (Z_le_gt_dec z 255) as [Hle | Hgt].
  - left. split; [exact Hle|].
    destruct (format_02x_byte z) as (a & b & E & Ha & Hb & Hv); [lia|].
    exists a, b. auto using lower_hex_is_hex.
  - right. split; [lia|].
    pose proof (wide_checked z) as H. unfold wide_check in H.
    destruct (Py.format_02x z) as [|a [|b [|c [|d s]]]];
      try (discriminate H; lia).
    exists a, b, c. specialize (H ltac:(lia)).
    rewrite !andb_true_iff, Z.leb_le in H.
    destruct H as (((Ha & Hb) & Hc) & Hv).
    auto 6 using lower_hex_is_hex.
Qed.

Ltac read_back :=
  unfold ColorLookup.rgb_to_hex;
  repeat match goal with
         | E : Py.format_02x _ = _ |- _ => rewrite E; clear E
         end;
  cbn [String.append];
  rewrite <- hex_to_rgb_lstrip; cbn [Py.lstrip];
  change (Ascii.eqb "#" "#") with true; cbv iota;
  rewrite hex_digit_not_hash by assumption;
  apply hex_to_rgb_six; assumption.

(** X18. Beyond 255 the two conversions no longer agree.  For components
    within [0, 999], [hex_to_rgb(rgb_to_hex(r, g, b))] always returns a
    colour, and it is [(r, g, b)] exactly when the three components are at
    most 255; the string has 7 characters exactly in that case. *)
Theorem rgb_to_hex_beyond_bytes :
  forall r g b : Z,
    0 <= r <= 999 -> 0 <= g <= 999 -> 0 <= b <= 999 ->
    exists r' g' b',
      ColorLookup.hex_to_rgb (ColorLookup.rgb_to_hex r g b) = Ok (r', g', b')
      /\ ((r', g', b') = (r, g, b) <-> r <= 255 /\ g <= 255 /\ b <= 255)
      /\ (String.length (ColorLookup.rgb_to_hex r g b) = 7%nat
          <-> r <= 255 /\ g <= 255 /\ b <= 255).
Proof.
  intros r g b Hr Hg Hb.
  destruct (format_02x_key r Hr)
    as [(Hr' & r1 & r2 & Er & Hr1 & Hr2 & Hrv)
       | (Hr' & r1 & r2 & r3 & Er & Hr1 & Hr2 & Hr3 & Hrv)];
    destruct (format_02x_key g Hg)
      as [(Hg' & g1 & g2 & Eg & Hg1 & Hg2 & Hgv)
         | (Hg' & g1 & g2 & g3 & Eg & Hg1 & Hg2 & Hg3 & Hgv)];
    destruct (format_02x_key b Hb)
      as [(Hb' & b1 & b2 & Eb & Hb1 & Hb2 & Hbv)
         | (Hb' & b1 & b2 & b3 & Eb & Hb1 & Hb2 & Hb3 & Hbv)];
    (do 3 eexists; split; [|split];
     [ read_back
     | split; intros H;
       [ inversion H; lia | first [ f_equal; [f_equal|]; lia | exfalso; lia ] ]
     | unfold ColorLookup.rgb_to_hex; rewrite Er, Eg, Eb;
       cbn [String.append String.length]; lia ]).
Qed.

Lemma rgb_to_hex_beyond_bytes_witness :
  exists r' g' b',
    ColorLookup.hex_to_rgb (ColorLookup.rgb_to_hex 999 999 999)
    = Ok (r', g', b')
    /\ ((r', g', b') = (999, 999, 999)
        <-> 999 <= 255 /\ 999 <= 255 /\ 999 <= 255)
    /\ (String.length (ColorLookup.rgb_to_hex 999 999 999) = 7%nat
        <-> 999 <= 255 /\ 999 <= 255 /\ 999 <= 255).
Proof.
  apply rgb_to_hex_beyond_bytes; lia.
Defined.

(** ** Further properties: the answers of the resolver *)

Lemma resolved_not_empty (t : table) (r g b : Z) :
  resolved t r g b <> EmptyString.
Proof.
  unfold resolved. destruct (in_range r g b); cbn [negb]; [|discriminate].
  destruct (Sql.select_name (r, g, b) t) as [[|c n]|]; discriminate.
Qed.

(** X19. [get_color_name] never answers with the empty string: in a
    reachable state it returns ["Invalid RGB value"] for a key out of range
    and, for a key in range, either ["Unknown"] or the non-empty name stored
    under the key. *)
Theorem get_color_name_answers :
  forall (s : ColorLookup.t) (r g b : Z),
    reachable s ->
    let v := fst (ColorLookup.get_color_name r g b s) in
    v <> EmptyString
    /\ (v = "Invalid RGB value"
        \/ v = "Unknown"
        \/ (in_range r g b = true
            /\ In ((r, g, b), v) (ColorDatabase.colors (ColorLookup.db s)))).
Proof.
  intros s r g b Hs v. subst v.
  destruct (get_color_name_coherent r g b s (reachable_coherent s Hs))
    as [-> _].
  split; [apply resolved_not_empty|].
  unfold resolved. destruct (in_range r g b); cbn [negb]; [|left; reflexivity].
  rewrite select_name_rows.
  destruct (rows_at (r, g, b) (ColorDatabase.colors (ColorLookup.db s)))
    as [|[k n] l] eqn:E; [right; left; reflexivity|].
  assert (In (k, n) (rows_at (r, g, b) (ColorDatabase.colors (ColorLookup.db s))))
    as Hin by (rewrite E; left; reflexivity).
  apply rows_at_In in Hin as [Hin Hk]. cbn [fst snd] in *. subst k.
  destruct n as [|c n]; cbn [ColorLookup.truthy];
    [right; left; reflexivity | right; right; split; [reflexivity | exact Hin]].
Qed.

Lemma get_color_name_answers_witness :
  let s := run [AddColor 255 0 0 "Bright Red"; AddColor 1 2 3 EmptyString]
               (ColorLookup.init []) in
  let v := fst (ColorLookup.get_color_name 1 2 3 s) in
  v <> EmptyString
  /\ (v = "Invalid RGB value"
      \/ v = "Unknown"
      \/ (in_range 1 2 3 = true
          /\ In ((1, 2, 3), v) (ColorDatabase.colors (ColorLookup.db s)))).
Proof.
  intros s. apply (get_color_name_answers s 1 2 3).
  exists [], [AddColor 255 0 0 "Bright Red"; AddColor 1 2 3 EmptyString].
  split; [constructor | reflexivity].
Defined.
